(** * EMIT L2A reflectance notebook: masking, nearest band, gamma scaling

    A shallow embedding of the code cells of
    [01_Exploring_L2A_Reflectance/01_Exploring_EMIT_L2A_Reflectance.ipynb].

    Numbers.  The arrays of the notebook hold IEEE floats.  The model keeps
    what the code branches on, a missing value (NaN) against a number, and
    takes the numbers as exact reals: rounding, signed zeros and infinite
    array cells are left out.  An infinity only shows up where the code
    makes one itself ([np.nanargmin] fills NaN with +inf, [np.power] of zero
    to a negative exponent).  Comparisons on reals are decided by
    [Req_dec_T], [Rlt_dec] and [Rle_dec]. *)

From Stdlib Require Import String.
From Stdlib Require Import Reals Lra Lia List Bool Arith.
Import ListNotations.
Open Scope string_scope.
Open Scope list_scope.
Open Scope R_scope.

(* ===================================================================== *)
(** ** Scalars *)
(* ===================================================================== *)

(** A cell of an array: missing, or a number. *)
Inductive val : Type :=
| NaN : val
| Num : R -> val.

(** An intermediate result that may also be +inf. *)
Inductive xval : Type :=
| XNaN : xval
| XInf : xval
| XNum : R -> xval.

Definition array1 := list val.
Definition array2 := list array1.
Definition array3 := list array2.

(** The exceptions the code can meet. *)
Inductive exn : Type :=
| ValueError
| ZeroDivisionError
| IndexError
| LibraryError (msg : string).

Inductive result (A : Type) : Type :=
| Ok : A -> result A
| Raise : exn -> result A.
Arguments Ok {A} _.
Arguments Raise {A} _.

Definition rbind {A B} (m : result A) (f : A -> result B) : result B :=
  match m with
  | Ok a => f a
  | Raise e => Raise e
  end.

Declare Scope result_scope.
Delimit Scope result_scope with result.
Notation "x <- m ;; k" := (rbind m (fun x => k))
  (at level 61, m at next level, right associativity) : result_scope.

Definition rmap {A B} (f : A -> B) (m : result A) : result B :=
  rbind m (fun a => Ok (f a)).

(** [mapM] in the error monad: the first failure wins. *)
Fixpoint traverse {A B} (f : A -> result B) (l : list A) : result (list B) :=
  match l with
  | [] => Ok []
  | a :: l' =>
      rbind (f a) (fun b => rbind (traverse f l') (fun bs => Ok (b :: bs)))
  end.

(* ===================================================================== *)
(** ** Masking the sentinel: [x.where(x != -0.01)] *)
(* ===================================================================== *)

(** The value the product writes in the water-absorption bands. *)
Definition sentinel : R := -0.01.

(** [v != c] on one cell; NaN differs from everything. *)
Definition val_ne (v : val) (c : R) : bool :=
  match v with
  | NaN => true
  | Num x => if Req_dec_T x c then false else true
  end.

(** [where] on one cell: keep the value where the condition holds, put
    missing elsewhere. *)
Definition where_val (cond : bool) (v : val) : val :=
  if cond then v else NaN.

Definition map2 {A B C} (f : A -> B -> C) (l : list A) (l' : list B) : list C :=
  map (fun p => f (fst p) (snd p)) (combine l l').

(** [a != c], cell by cell. *)
Definition da_ne (a : array3) (c : R) : list (list (list bool)) :=
  map (map (map (fun v => val_ne v c))) a.

(** [a.where(cond)], cell by cell. *)
Definition da_where (cond : list (list (list bool))) (a : array3) : array3 :=
  map2 (map2 (map2 where_val)) cond a.

(** [a.where(a != -0.01)]. *)
Definition mask_sentinel (a : array3) : array3 :=
  da_where (da_ne a sentinel) a.

Definition is_missing (v : val) : bool :=
  match v with
  | NaN => true
  | Num _ => false
  end.

(** [v == -0.01] on one cell. *)
Definition is_sentinel (v : val) : bool := negb (val_ne v sentinel).

Definition count1 (p : val -> bool) (l : array1) : nat := length (filter p l).
Definition count2 (p : val -> bool) (a : array2) : nat :=
  list_sum (map (count1 p) a).
Definition count3 (p : val -> bool) (a : array3) : nat :=
  list_sum (map (count2 p) a).

Definition lookup3 (a : array3) (i j k : nat) : option val :=
  match nth_error a i with
  | None => None
  | Some row =>
      match nth_error row j with
      | None => None
      | Some spectrum => nth_error spectrum k
      end
  end.

Definition lookup2 {A} (a : list (list A)) (i j : nat) : option A :=
  match nth_error a i with
  | None => None
  | Some row => nth_error row j
  end.

(** [a.isel(bands=band)]: one band of every pixel; an index past the end
    of a spectrum raises. *)
Definition isel_bands (band : nat) (a : array3) : result array2 :=
  traverse (traverse (fun spectrum : array1 =>
    match nth_error spectrum band with
    | Some v => Ok v
    | None => Raise IndexError
    end)) a.

(** The mask on one cell, and on the spectra of one row of pixels. *)
Definition mask_val (v : val) : val := where_val (val_ne v sentinel) v.

Definition mask_plane (p : array2) : array2 := map (map mask_val) p.

(* ===================================================================== *)
(** ** Datasets *)
(* ===================================================================== *)

(** The merged dataset [ds] and the gridded dataset [ds_geo]: the
    reflectance cube (two spatial axes, then bands), the band parameters,
    and the named coordinate axes. *)
Record Dataset : Type := mkDataset {
  reflectance : array3;
  wavelengths : array1;
  fwhm : array1;
  coords : list (string * array1)
}.

(** [ds['reflectance'] = v]. *)
Definition set_reflectance (ds : Dataset) (v : array3) : Dataset :=
  {| reflectance := v;
     wavelengths := wavelengths ds;
     fwhm := fwhm ds;
     coords := coords ds |}.

(** Cell 19:
    [ds['reflectance'] = ds['reflectance'].where(ds['reflectance'] != -0.01)]. *)
Definition mask_ds (ds : Dataset) : Dataset :=
  set_reflectance ds (da_where (da_ne (reflectance ds) sentinel) (reflectance ds)).

(** Modelled from the spec: [apply_gltx] is not among the sources; the
    gridded dataset it returns has [reflectance] as its data variable and
    carries the band parameters and Latitude/Longitude as coordinates.
    [Dataset.where] masks the data variables and keeps the coordinates. *)
Definition ds_where (cond : list (list (list bool))) (ds : Dataset) : Dataset :=
  {| reflectance := da_where cond (reflectance ds);
     wavelengths := wavelengths ds;
     fwhm := fwhm ds;
     coords := coords ds |}.

(** Cell 34: [ds_geo = ds_geo.where(ds_geo['reflectance'] != -0.01)]. *)
Definition mask_ds_geo (ds_geo : Dataset) : Dataset :=
  ds_where (da_ne (reflectance ds_geo) sentinel) ds_geo.

(* ===================================================================== *)
(** ** Nearest band: [np.nanargmin(abs(wavelengths - target))] *)
(* ===================================================================== *)

(** [w - t] and [abs] on one cell; NaN stays NaN. *)
Definition val_sub (v : val) (t : R) : val :=
  match v with
  | NaN => NaN
  | Num x => Num (x - t)
  end.

Definition val_abs (v : val) : val :=
  match v with
  | NaN => NaN
  | Num x => Num (Rabs x)
  end.

Definition is_xnan (v : xval) : bool :=
  match v with
  | XNaN => true
  | _ => false
  end.

(** [==] on intermediate values; NaN equals nothing. *)
Definition xeqb (a b : xval) : bool :=
  match a, b with
  | XInf, XInf => true
  | XNum x, XNum y => if Req_dec_T x y then true else false
  | _, _ => false
  end.

(** [np.minimum]: NaN wins, then the smaller one. *)
Definition xmin (a b : xval) : xval :=
  match a, b with
  | XNaN, _ => XNaN
  | _, XNaN => XNaN
  | XInf, _ => b
  | _, XInf => a
  | XNum x, XNum y => XNum (Rmin x y)
  end.

(** Position of the first element satisfying [p] (the length if none). *)
Fixpoint first_index {A} (p : A -> bool) (l : list A) : nat :=
  match l with
  | [] => 0%nat
  | a :: l' => if p a then 0%nat else S (first_index p l')
  end.

(** [np.argmin] on a one-dimensional array: the first occurrence of the
    minimum, a NaN counting as the minimum; an empty array raises. *)
Definition np_argmin (a : list xval) : result nat :=
  match a with
  | [] => Raise ValueError
  | x :: a' =>
      let m := fold_left xmin a' x in
      Ok (first_index (fun v => is_xnan m && is_xnan v || xeqb v m) a)
  end.

(** [_replace_nan(a, np.inf)]: the array with NaN replaced, and the mask
    of the replaced positions. *)
Definition replace_nan (a : array1) : list xval * list bool :=
  (map (fun v => match v with NaN => XInf | Num x => XNum x end) a,
   map is_missing a).

(** [np.nanargmin]: an all-NaN array raises, otherwise [np.argmin] of the
    array with NaN replaced by +inf. *)
Definition np_nanargmin (a : array1) : result nat :=
  let (a', mask) := replace_nan a in
  if negb (length mask =? 0)%nat && forallb (fun b => b) mask
  then Raise ValueError
  else np_argmin a'.

(** [np.nanargmin(abs(wavelengths - target))]. *)
Definition nearest_band (wl : array1) (target : R) : result nat :=
  np_nanargmin (map val_abs (map (fun w => val_sub w target) wl)).

(** Cell 38. *)
Definition b650 (ds : Dataset) : result nat := nearest_band (wavelengths ds) 650.
Definition b560 (ds : Dataset) : result nat := nearest_band (wavelengths ds) 560.
Definition b470 (ds : Dataset) : result nat := nearest_band (wavelengths ds) 470.

(** The distance array after [_replace_nan]. *)
Definition xdist (target : R) (w : val) : xval :=
  match w with
  | NaN => XInf
  | Num x => XNum (Rabs (x - target))
  end.

(** The order [np.argmin] works with once no NaN is left. *)
Definition xle (a b : xval) : Prop :=
  match a, b with
  | XNaN, _ => False
  | _, XNaN => False
  | _, XInf => True
  | XInf, XNum _ => False
  | XNum x, XNum y => x <= y
  end.

(** The linear scan of the specification: walk the bands once, keep the
    best index and distance so far, replace them on a strictly smaller
    distance; a band without a wavelength is skipped. *)
Fixpoint scan_from (wl : array1) (target : R) (i : nat)
    (best : option (nat * R)) : option (nat * R) :=
  match wl with
  | [] => best
  | w :: wl' =>
      let best' :=
        match w with
        | NaN => best
        | Num x =>
            let d := Rabs (x - target) in
            match best with
            | None => Some (i, d)
            | Some (_, bd) => if Rlt_dec d bd then Some (i, d) else best
            end
        end in
      scan_from wl' target (S i) best'
  end.

Definition linear_scan_nearest (wl : array1) (target : R) : result nat :=
  match scan_from wl target 0 None with
  | Some (i, _) => Ok i
  | None => Raise ValueError
  end.

(** Band [i] is the first band at minimal distance from [target]. *)
Definition first_nearest (wl : array1) (target : R) (i : nat) : Prop :=
  exists w, nth_error wl i = Some (Num w) /\
    forall j w', nth_error wl j = Some (Num w') ->
      Rabs (w - target) <= Rabs (w' - target) /\
      ((j < i)%nat -> Rabs (w - target) < Rabs (w' - target)).

(* ===================================================================== *)
(** ** Gamma scaling: [gamma_adjust] *)
(* ===================================================================== *)

(** The numbers of a plane, missing cells dropped. *)
Definition valid_values (a : array2) : list R :=
  flat_map (flat_map (fun v => match v with NaN => [] | Num x => [x] end)) a.

Definition Rsum (l : list R) : R := fold_right Rplus 0 l.

(** [np.nanmean]: the mean of the numbers; NaN when there is none. *)
Definition np_nanmean (a : array2) : val :=
  match valid_values a with
  | [] => NaN
  | vs => Num (Rsum vs / INR (length vs))
  end.

(** [math.log]: a domain error at and below zero, NaN passes through. *)
Definition math_log (v : val) : result val :=
  match v with
  | NaN => Ok NaN
  | Num x => if Rle_dec x 0 then Raise ValueError else Ok (Num (ln x))
  end.

(** [/] on Python floats: a zero divisor raises. *)
Definition float_div (a b : val) : result val :=
  match b with
  | NaN => Ok NaN
  | Num y =>
      if Req_dec_T y 0 then Raise ZeroDivisionError
      else match a with
           | NaN => Ok NaN
           | Num x => Ok (Num (x / y))
           end
  end.

(** The exponent is a whole number. *)
Definition is_integer (g : R) : bool :=
  if Req_dec_T (IZR (Int_part g)) g then true else false.

(** [np.power] on one cell.  Anything to the power 0 and 1 to any power
    are 1, even with NaN; a negative base takes whole exponents only;
    zero to a negative exponent is +inf. *)
Definition np_power (v g : val) : xval :=
  match v, g with
  | NaN, NaN => XNaN
  | NaN, Num y => if Req_dec_T y 0 then XNum 1 else XNaN
  | Num x, NaN => if Req_dec_T x 1 then XNum 1 else XNaN
  | Num x, Num y =>
      if Req_dec_T y 0 then XNum 1
      else if Rlt_dec 0 x then XNum (Rpower x y)
      else if Req_dec_T x 0 then (if Rlt_dec 0 y then XNum 0 else XInf)
      else if is_integer y then XNum (powerRZ x (Int_part y))
      else XNaN
  end.

(** [.clip(lo, hi)] on one cell: [minimum(maximum(v, lo), hi)]. *)
Definition np_clip (lo hi : R) (v : xval) : val :=
  match v with
  | XNaN => NaN
  | XInf => Num hi
  | XNum x => Num (Rmin (Rmax x lo) hi)
  end.

(** [np.nan_to_num(v, nan = c)] on one cell.  It would also replace an
    infinity; after the clip there is none left. *)
Definition nan_to_num (c : R) (v : val) : val :=
  match v with
  | NaN => Num c
  | Num x => Num x
  end.

(** The two scaling lines of [gamma_adjust]. *)
Definition gamma_scale (array : array2) (gamma : val) : array2 :=
  let scaled := map (map (fun v => np_clip 0 1 (np_power v gamma))) array in
  map (map (nan_to_num 1)) scaled.

(** The exponent line of [gamma_adjust]. *)
Definition gamma_exponent (array : array2) : result val :=
  (num <- math_log (Num 0.2) ;;
   den <- math_log (np_nanmean array) ;;
   float_div num den)%result.

(** Cell 40. *)
Definition gamma_adjust (ds : Dataset) (band : nat) : result array2 :=
  (array <- isel_bands band (reflectance ds) ;;
   gamma <- gamma_exponent array ;;
   Ok (gamma_scale array gamma))%result.

(** [np.stack]: at least one array, all of one shape. *)
Definition shape2 {A} (a : list (list A)) : nat * nat :=
  (length a, match a with [] => 0%nat | row :: _ => length row end).

Definition shape_eqb (s s' : nat * nat) : bool :=
  (fst s =? fst s')%nat && (snd s =? snd s')%nat.

Definition np_stack (arrays : list array2) : result (list array2) :=
  match arrays with
  | [] => Raise ValueError
  | a :: _ =>
      if forallb (fun a' => shape_eqb (shape2 a') (shape2 a)) arrays
      then Ok arrays
      else Raise ValueError
  end.

(** A plane with [rows] rows of [cols] cells, and a stack of such. *)
Definition rect2 {A} (rows cols : nat) (a : list (list A)) : Prop :=
  length a = rows /\ Forall (fun row => length row = cols) a.

Definition rect3 {A} (n rows cols : nat) (a : list (list (list A))) : Prop :=
  length a = n /\ Forall (rect2 rows cols) a.

(** Cell 42, the three scaled bands stacked. *)
Definition rgb_stack (ds_geo : Dataset) (br bg bb : nat) : result (list array2) :=
  (r <- gamma_adjust ds_geo br ;;
   g <- gamma_adjust ds_geo bg ;;
   b <- gamma_adjust ds_geo bb ;;
   np_stack [r; g; b])%result.

(* ===================================================================== *)
(** ** The notebook as a script over the file system and the session *)
(* ===================================================================== *)

(** What a library call does to the outside: read a file, write a file,
    show something in the interactive session, or nothing.  No cell of
    the notebook writes; [FsWrite] is what a cell saving a result (a
    [to_netcdf], a [savefig]) would log. *)
Inductive effect : Type :=
| FsRead (path : string)
| FsWrite (path : string)
| Display
| Pure.

(** One call as the session sees it: the operation, its effect, and the
    exception it ended with, if any. *)
Record event : Type := mkEvent {
  ev_op : string;
  ev_effect : effect;
  ev_raised : option exn
}.

Definition bytes := list Byte.byte.

Record World : Type := mkWorld {
  files : string -> option bytes;
  trace : list event
}.

(** Cells run in a world and either return or raise. *)
Definition M (A : Type) : Type := World -> result A * World.

Definition mret {A} (a : A) : M A := fun w => (Ok a, w).

Definition mbind {A B} (m : M A) (f : A -> M B) : M B :=
  fun w =>
    match m w with
    | (Ok a, w') => f a w'
    | (Raise e, w') => (Raise e, w')
    end.

Declare Scope M_scope.
Delimit Scope M_scope with M.
Notation "x <- m ;; k" := (mbind m (fun x => k))
  (at level 61, m at next level, right associativity) : M_scope.
Notation "m ;;; k" := (mbind m (fun _ => k))
  (at level 61, right associativity) : M_scope.

Definition raised {A} (r : result A) : option exn :=
  match r with
  | Ok _ => None
  | Raise e => Some e
  end.

Definition log (ev : event) (w : World) : World :=
  {| files := files w; trace := trace w ++ [ev] |}.

(** A call of a library operation whose outcome is [r]. *)
Definition call {A} (op : string) (eff : effect) (r : result A) : M A :=
  fun w => (r, log (mkEvent op eff (raised r)) w).

(** A call that is handed a path and reads that file. *)
Definition call_read {A} (op path : string) (f : option bytes -> result A) : M A :=
  fun w => call op (FsRead path) (f (files w path)) w.

(** The value a cell ends with, shown by the session. *)
Definition show (what : string) : M unit := call what Display (Ok tt).

(** The libraries under the notebook, taken as they come: each operation
    returns or raises as it sees fit. *)
Record Library : Type := mkLibrary {
  plot : Type;
  nc_Dataset : option bytes -> result (list string);
  xr_open_dataset : option bytes -> option string -> result Dataset;
  xr_merge : Dataset -> Dataset -> result Dataset;
  apply_gltx : option bytes -> result Dataset;
  sel_nearest : Dataset -> R -> R -> result array1;
  xr_Dataset : list array2 -> array1 -> array1 -> result Dataset;
  hvplot_line : string -> array1 -> array1 -> result plot;
  hvplot_image : array2 -> result plot;
  hvplot_rgb : Dataset -> result plot;
  hv_layout : plot -> plot -> plot -> result plot
}.

(** [a.isel(downtrack=i, crosstrack=j)]. *)
Definition isel_pixel (i j : nat) (a : array3) : result array1 :=
  match lookup2 a i j with
  | Some spectrum => Ok spectrum
  | None => Raise IndexError
  end.

(** [np.arange(n)] as numbers: the values of a dimension without a
    coordinate. *)
Definition band_index (n : nat) : array1 :=
  map (fun k => Num (INR k)) (seq 0 n).

(** [ds[name].values] for a coordinate. *)
Fixpoint coord (name : string) (cs : list (string * array1)) : result array1 :=
  match cs with
  | [] => Raise (LibraryError "KeyError")
  | (n, v) :: cs' => if String.eqb n name then Ok v else coord name cs'
  end.

(** The cells of the notebook, by their number in the file.  A cell that
    ends on an expression shows its value. *)

(** Cells 7 and 9. *)
Definition cell_07 (L : Library) (fp : string) : M unit :=
  (groups <- call_read "nc.Dataset" fp (nc_Dataset L) ;;
   show "ds" ;;;
   show "ds.groups.keys()")%M.

(** Cell 11. *)
Definition cell_11 (L : Library) (fp : string) : M Dataset :=
  (refl <- call_read "xr.open_dataset" fp (fun f => xr_open_dataset L f None) ;;
   show "refl" ;;;
   mret refl)%M.

(** Cell 13. *)
Definition cell_13 (L : Library) (fp : string) : M Dataset :=
  (wvl <- call_read "xr.open_dataset" fp
            (fun f => xr_open_dataset L f (Some "sensor_band_parameters")) ;;
   show "wvl" ;;;
   mret wvl)%M.

(** Cell 15. *)
Definition cell_15 (L : Library) (refl wvl : Dataset) : M Dataset :=
  (ds <- call "xr.merge" Pure (xr_merge L refl wvl) ;;
   show "ds" ;;;
   mret ds)%M.

(** Cell 17. *)
Definition cell_17 (L : Library) (ds : Dataset) : M unit :=
  (px <- call "isel" Pure (isel_pixel 660 370 (reflectance ds)) ;;
   p <- call "hvplot.line" Pure
          (hvplot_line L "bands" (band_index (length px)) px) ;;
   show "line")%M.

(** Cell 19. *)
Definition cell_19 (ds : Dataset) : M Dataset :=
  (let ds := mask_ds ds in
   show "ds" ;;;
   mret ds)%M.

(** Cell 23. *)
Definition cell_23 (L : Library) (ds : Dataset) : M unit :=
  (px <- call "isel" Pure (isel_pixel 660 370 (reflectance ds)) ;;
   p <- call "hvplot.line" Pure
          (hvplot_line L "wavelengths" (wavelengths ds) px) ;;
   show "line")%M.

(** Cell 26. *)
Definition cell_26 (L : Library) (ds : Dataset) : M nat :=
  (b650 <- call "np.nanargmin" Pure (nearest_band (wavelengths ds) 650) ;;
   plane <- call "isel" Pure (isel_bands b650 (reflectance ds)) ;;
   p <- call "hvplot.image" Pure (hvplot_image L plane) ;;
   show "image" ;;;
   mret b650)%M.

(** Cell 28. *)
Definition cell_28 (L : Library) (fp : string) : M Dataset :=
  (loc <- call_read "xr.open_dataset" fp
            (fun f => xr_open_dataset L f (Some "location")) ;;
   show "loc" ;;;
   mret loc)%M.

(** Modelled from the spec: [apply_glt_xarray.apply_gltx] is not among the
    sources.  The specification has it as an opaque function of the file
    path that returns the gridded dataset: a call that reads the input
    file, whatever it computes from it. *)
Definition gltxr_apply_gltx (L : Library) (fp : string) : M Dataset :=
  call_read "gltxr.apply_gltx" fp (apply_gltx L).

(** Cell 30. *)
Definition cell_30 (L : Library) (fp : string) : M Dataset :=
  (ds_geo <- gltxr_apply_gltx L fp ;;
   show "ds_geo" ;;;
   mret ds_geo)%M.

(** Cell 32. *)
Definition cell_32 (L : Library) (ds_geo : Dataset) (b650 : nat) : M unit :=
  (plane <- call "isel" Pure (isel_bands b650 (reflectance ds_geo)) ;;
   p <- call "hvplot.image" Pure (hvplot_image L plane) ;;
   show "image")%M.

(** Cell 34. *)
Definition cell_34 (ds_geo : Dataset) : M Dataset :=
  mret (mask_ds_geo ds_geo).

(** Cell 36. *)
Definition cell_36 (L : Library) (ds_geo : Dataset) : M unit :=
  (px <- call "sel" Pure (sel_nearest L ds_geo (-61.833) (-39.710)) ;;
   p <- call "hvplot.line" Pure
          (hvplot_line L "wavelengths" (wavelengths ds_geo) px) ;;
   show "line")%M.

(** Cell 38. *)
Definition cell_38 (ds_geo : Dataset) : M (nat * nat * nat) :=
  (r <- call "np.nanargmin" Pure (b650 ds_geo) ;;
   g <- call "np.nanargmin" Pure (b560 ds_geo) ;;
   b <- call "np.nanargmin" Pure (b470 ds_geo) ;;
   mret (r, g, b))%M.

(** Cell 42. *)
Definition cell_42 (L : Library) (ds_geo : Dataset) (bands : nat * nat * nat)
    : M Dataset :=
  (let '(b650, b560, b470) := bands in
   r <- call "gamma_adjust" Pure (gamma_adjust ds_geo b650) ;;
   g <- call "gamma_adjust" Pure (gamma_adjust ds_geo b560) ;;
   b <- call "gamma_adjust" Pure (gamma_adjust ds_geo b470) ;;
   rgb <- call "np.stack" Pure (np_stack [r; g; b]) ;;
   x <- call "ds_geo['Longitude']" Pure (coord "Longitude" (coords ds_geo)) ;;
   y <- call "ds_geo['Latitude']" Pure (coord "Latitude" (coords ds_geo)) ;;
   ds_rgb <- call "xr.Dataset" Pure (xr_Dataset L rgb y x) ;;
   show "ds_rgb" ;;;
   mret ds_rgb)%M.

(** Cell 44. *)
Definition cell_44 (L : Library) (ds_rgb : Dataset) : M (plot L) :=
  call "hvplot.rgb" Pure (hvplot_rgb L ds_rgb).

(** Cell 46: [point_spectra] and [click_spectra], the callbacks of the two
    streams; they differ in the colour of the line only. *)
Definition point_spectra (L : Library) (ds_geo : Dataset) (x y : R) : M (plot L) :=
  (px <- call "sel" Pure (sel_nearest L ds_geo x y) ;;
   call "hvplot.line" Pure
     (hvplot_line L "wavelengths" (wavelengths ds_geo) px))%M.

Definition click_spectra (L : Library) (ds_geo : Dataset) (x y : R) : M (plot L) :=
  (px <- call "sel" Pure (sel_nearest L ds_geo x y) ;;
   call "hvplot.line" Pure
     (hvplot_line L "wavelengths" (wavelengths ds_geo) px))%M.

(** Cell 46, the cell itself: the style element, the first spectra at the
    start position of the streams, the layout. *)
Definition cell_46 (L : Library) (ds_geo : Dataset) (map : plot L) : M (plot L) :=
  (show "HTML" ;;;
   click <- click_spectra L ds_geo (-61.833) (-39.710) ;;
   point <- point_spectra L ds_geo (-61.833) (-39.710) ;;
   layout <- call "layout" Pure (hv_layout L map click point) ;;
   show "layout" ;;;
   mret layout)%M.

(** The whole run, top to bottom. *)
Definition run (L : Library) (fp : string) : M (plot L) :=
  (cell_07 L fp ;;;
   refl <- cell_11 L fp ;;
   wvl <- cell_13 L fp ;;
   ds <- cell_15 L refl wvl ;;
   cell_17 L ds ;;;
   ds <- cell_19 ds ;;
   cell_23 L ds ;;;
   b650 <- cell_26 L ds ;;
   loc <- cell_28 L fp ;;
   ds_geo <- cell_30 L fp ;;
   cell_32 L ds_geo b650 ;;;
   ds_geo <- cell_34 ds_geo ;;
   cell_36 L ds_geo ;;;
   bands <- cell_38 ds_geo ;;
   ds_rgb <- cell_42 L ds_geo bands ;;
   map <- cell_44 L ds_rgb ;;
   cell_46 L ds_geo map)%M.

(** The effects a run may have on [fp]'s file system and session. *)
Definition reads_or_shows (fp : string) (ev : event) : Prop :=
  ev_effect ev = FsRead fp \/ ev_effect ev = Display \/ ev_effect ev = Pure.

Definition succeeded (ev : event) : Prop := ev_raised ev = None.

(** How the events of a computation relate to its outcome when nothing
    catches: every call before the last returned, and the outcome is an
    exception exactly when the last call raised it. *)
Definition uncaught {A} (new : list event) (r : result A) : Prop :=
  match r with
  | Ok _ => Forall succeeded new
  | Raise e =>
      exists before last,
        new = before ++ [last] /\ Forall succeeded before /\
        ev_raised last = Some e
  end.

(** From the world [w], the computation ends as its last call ended. *)
Definition propagates {A} (m : M A) (w : World) : Prop :=
  exists new,
    trace (snd (m w)) = trace w ++ new /\ uncaught new (fst (m w)).


(** A computation that only reads [fp] and shows, and catches nothing. *)
Definition transparent {A} (fp : string) (m : M A) : Prop :=
  forall w r w', m w = (r, w') ->
    files w' = files w /\
    exists new, trace w' = trace w ++ new /\
      Forall (reads_or_shows fp) new /\ uncaught new r.

(** A library session in which every operation fails with [e], as on a
    file the readers cannot make sense of. *)
Definition failing_library (e : exn) : Library :=
  {| plot := unit;
     nc_Dataset := fun _ => Raise e;
     xr_open_dataset := fun _ _ => Raise e;
     xr_merge := fun _ _ => Raise e;
     apply_gltx := fun _ => Raise e;
     sel_nearest := fun _ _ _ => Raise e;
     xr_Dataset := fun _ _ _ => Raise e;
     hvplot_line := fun _ _ _ => Raise e;
     hvplot_image := fun _ => Raise e;
     hvplot_rgb := fun _ => Raise e;
     hv_layout := fun _ _ _ => Raise e |}.

(** A file system holding nothing, and a session that has shown nothing. *)
Definition empty_world : World :=
  {| files := fun _ => None; trace := [] |}.

(* ===================================================================== *)
(** ** Sample data *)
(* ===================================================================== *)

(** A gridded dataset of one row and two pixels with three bands, whose
    band means are 0.5, 0.2 and 0.04. *)
Definition sample_ds : Dataset :=
  {| reflectance := [[[Num 0.3; Num 0.1; Num 0.02]; [Num 0.7; Num 0.3; Num 0.06]]];
     wavelengths := [Num 470; Num 560; Num 650];
     fwhm := [Num 8.5; Num 8.5; Num 8.5];
     coords := [("Latitude", [Num (-39.71)]);
                ("Longitude", [Num (-61.84); Num (-61.83)])] |}.

(** One row of three pixels with one band; the middle pixel holds the
    mean 0.5. *)
Definition mean_ds : Dataset :=
  {| reflectance := [[[Num 0.3]; [Num 0.5]; [Num 0.7]]];
     wavelengths := [Num 650];
     fwhm := [Num 8.5];
     coords := [] |}.

(** One band with a negative reflectance and mean 0.2, and one with a
    negative reflectance and mean 0.04. *)
Definition negative_ds : Dataset :=
  {| reflectance := [[[Num (-0.1); Num (-0.02)]; [Num 0.5; Num 0.1]]];
     wavelengths := [Num 560; Num 650];
     fwhm := [Num 8.5; Num 8.5];
     coords := [] |}.

(* ===================================================================== *)
(** ** Well-shaped cubes *)
(* ===================================================================== *)

(** A cube of [rows] by [cols] pixels whose spectra all have [nbands]
    cells, as an array of the library always is. *)
Definition cube (rows cols nbands : nat) (a : array3) : Prop :=
  rect2 rows cols a /\
  Forall (Forall (fun spectrum : array1 => length spectrum = nbands)) a.

(** [x != -0.01] on a number. *)
Definition not_sentinel (x : R) : bool :=
  if Req_dec_T x sentinel then false else true.

(** What a non-negative cell [x] comes out as under an exponent [g]
    other than 0: the clipped power, with zero going to 0 under a
    positive exponent and, by way of +inf, to 1 under a negative one. *)
Definition clip01 (z : R) : R := Rmin (Rmax z 0) 1.

Definition scaled_value (x g : R) : R :=
  if Req_dec_T x 0 then (if Rlt_dec 0 g then 0 else 1)
  else clip01 (Rpower x g).

(** The rows and the columns of every row, the shape of a nested list. *)
Definition row_lengths {A} (a : list (list A)) : list nat := map (@length A) a.

(* ===================================================================== *)
(** ** More sample data *)
(* ===================================================================== *)

(** One row of four pixels with two bands.  Band 0 holds a missing cell
    and a sentinel among two reflectances; band 1 is a water-absorption
    band, the sentinel everywhere. *)
Definition gappy_ds : Dataset :=
  {| reflectance :=
       [[[Num 0.3; Num (-0.01)]; [NaN; Num (-0.01)];
         [Num (-0.01); Num (-0.01)]; [Num 0.7; Num (-0.01)]]];
     wavelengths := [Num 650; Num 1400];
     fwhm := [Num 8.5; Num 8.5];
     coords := [] |}.

(* ===================================================================== *)
(** * Proofs *)
(* ===================================================================== *)

(** Decide the comparisons of reals left in a goal on concrete numbers,
    innermost first. *)
Ltac no_dec x :=
  lazymatch x with
  | context [Req_dec_T _ _] => fail
  | context [Rlt_dec _ _] => fail
  | context [Rle_dec _ _] => fail
  | _ => idtac
  end.

Ltac rdecide :=
  repeat match goal with
  | |- context [Req_dec_T ?x ?y] =>
      no_dec x; no_dec y; destruct (Req_dec_T x y); try (exfalso; lra)
  | |- context [Rlt_dec ?x ?y] =>
      no_dec x; no_dec y; destruct (Rlt_dec x y); try (exfalso; lra)
  | |- context [Rle_dec ?x ?y] =>
      no_dec x; no_dec y; destruct (Rle_dec x y); try (exfalso; lra)
  end.

Section Map2.
Context {A B : Type}.

Lemma map2_diag (f : B -> A -> A) (g : A -> B) (l : list A) :
  map2 f (map g l) l = map (fun a => f (g a) a) l.
Proof.
  unfold map2. induction l as [|a l IH]; simpl; [reflexivity|].
  f_equal. exact IH.
Qed.
End Map2.

Lemma mask_sentinel_map (a : array3) :
  mask_sentinel a = map mask_plane a.
Proof.
  unfold mask_sentinel, da_where, da_ne, mask_plane.
  rewrite map2_diag. apply map_ext. intros row.
  rewrite map2_diag. apply map_ext. intros spectrum.
  rewrite map2_diag. reflexivity.
Qed.

Lemma mask_val_cases (v : val) :
  mask_val v = if is_sentinel v then NaN else v.
Proof.
  unfold mask_val, is_sentinel, where_val.
  destruct (val_ne v sentinel); reflexivity.
Qed.

Lemma mask_val_idem (v : val) : mask_val (mask_val v) = mask_val v.
Proof.
  unfold mask_val, where_val.
  destruct (val_ne v sentinel) eqn:E; simpl; [rewrite E|]; reflexivity.
Qed.

Lemma mask_val_missing (v : val) :
  is_missing (mask_val v) = is_sentinel v || is_missing v.
Proof.
  rewrite mask_val_cases. unfold is_sentinel.
  destruct v as [|x]; simpl; [reflexivity|].
  destruct (Req_dec_T x sentinel); reflexivity.
Qed.

Lemma sentinel_not_missing (v : val) :
  is_sentinel v && is_missing v = false.
Proof. destruct v; simpl; [reflexivity|apply andb_false_r]. Qed.

(* --------------------------------------------------------------------- *)
(** ** Masking *)
(* --------------------------------------------------------------------- *)

Lemma mask_sentinel_cells (a : array3) :
  mask_sentinel a = map (map (map mask_val)) a.
Proof. rewrite mask_sentinel_map. reflexivity. Qed.

Lemma count1_mask (l : array1) :
  count1 is_missing (map mask_val l)
  = (count1 is_sentinel l + count1 is_missing l)%nat.
Proof.
  unfold count1. induction l as [|v l IH]; simpl; [reflexivity|].
  rewrite mask_val_missing.
  pose proof (sentinel_not_missing v) as Hx.
  destruct (is_sentinel v), (is_missing v); simpl in *;
    try discriminate; rewrite IH; lia.
Qed.

Lemma count2_mask (p : array2) :
  count2 is_missing (mask_plane p)
  = (count2 is_sentinel p + count2 is_missing p)%nat.
Proof.
  unfold count2, mask_plane. induction p as [|l p IH]; simpl; [reflexivity|].
  rewrite count1_mask, IH. lia.
Qed.

Lemma count3_mask (a : array3) :
  count3 is_missing (mask_sentinel a)
  = (count3 is_sentinel a + count3 is_missing a)%nat.
Proof.
  rewrite mask_sentinel_map. unfold count3.
  induction a as [|p a IH]; simpl; [reflexivity|].
  rewrite count2_mask, IH. lia.
Qed.

Section Traverse.
Context {A B C : Type}.

Lemma traverse_map (f : B -> result C) (g : A -> B) (l : list A) :
  traverse f (map g l) = traverse (fun x => f (g x)) l.
Proof.
  induction l as [|a l IH]; simpl; [reflexivity|]. rewrite IH. reflexivity.
Qed.

Lemma traverse_rmap (f f' : A -> result B) (h : B -> B) (l : list A) :
  (forall x, f' x = rmap h (f x)) ->
  traverse f' l = rmap (map h) (traverse f l).
Proof.
  intros Hf. induction l as [|a l IH]; simpl; [reflexivity|].
  rewrite Hf, IH. unfold rmap, rbind.
  destruct (f a); [|reflexivity].
  destruct (traverse f l); reflexivity.
Qed.
End Traverse.

Lemma isel_bands_mask (band : nat) (a : array3) :
  isel_bands band (mask_sentinel a) = rmap mask_plane (isel_bands band a).
Proof.
  rewrite mask_sentinel_cells. unfold isel_bands, mask_plane.
  rewrite traverse_map. apply traverse_rmap. intros row.
  rewrite traverse_map. apply traverse_rmap. intros spectrum.
  rewrite nth_error_map.
  destruct (nth_error spectrum band); reflexivity.
Qed.

Lemma lookup3_mask (a : array3) (i j k : nat) :
  lookup3 (mask_sentinel a) i j k = option_map mask_val (lookup3 a i j k).
Proof.
  rewrite mask_sentinel_cells. unfold lookup3, array3, array2, array1 in *.
  rewrite nth_error_map. destruct (nth_error a i) as [row|]; simpl; [|reflexivity].
  rewrite nth_error_map. destruct (nth_error row j) as [sp|]; simpl; [|reflexivity].
  apply nth_error_map.
Qed.

Lemma mask_sentinel_idem (a : array3) :
  mask_sentinel (mask_sentinel a) = mask_sentinel a.
Proof.
  rewrite !mask_sentinel_cells.
  rewrite map_map. apply map_ext. intros row.
  rewrite map_map. apply map_ext. intros sp.
  rewrite map_map. apply map_ext. intros v.
  apply mask_val_idem.
Qed.

(** A cube with one pixel: a sentinel, a missing cell, a reflectance. *)
Example mask_example :
  mask_sentinel [[[Num (-0.01); NaN; Num 0.3]]] = [[[NaN; NaN; Num 0.3]]].
Proof.
  unfold mask_sentinel, da_where, da_ne, map2, where_val, val_ne, sentinel.
  simpl. rdecide. reflexivity.
Qed.

(** C3, as stated, fails on a cube that already has a missing cell: the
    masked cube has two missing cells, the original one sentinel. *)
Lemma mask_count_counterexample :
  count3 is_missing (mask_sentinel [[[Num (-0.01); NaN; Num 0.3]]])
  <> count3 is_sentinel [[[Num (-0.01); NaN; Num 0.3]]].
Proof.
  rewrite mask_example.
  unfold count3, count2, count1, is_sentinel, val_ne, sentinel. simpl.
  rdecide. simpl. discriminate.
Qed.

(** C3 (amended): after [where(reflectance != -0.01)] the number of
    missing cells is the number of sentinel cells of the original plus the
    number of cells that were missing already, on the whole cube and on
    every band; both masking cells of the notebook compute this mask. *)
Theorem mask_count_missing :
  forall a : array3,
    count3 is_missing (mask_sentinel a)
    = (count3 is_sentinel a + count3 is_missing a)%nat /\
    (forall band,
       isel_bands band (mask_sentinel a) = rmap mask_plane (isel_bands band a)) /\
    (forall plane,
       count2 is_missing (mask_plane plane)
       = (count2 is_sentinel plane + count2 is_missing plane)%nat) /\
    (forall ds, reflectance (mask_ds ds) = mask_sentinel (reflectance ds)) /\
    (forall ds, reflectance (mask_ds_geo ds) = mask_sentinel (reflectance ds)).
Proof.
  intros a. split; [apply count3_mask|].
  split; [intros band; apply isel_bands_mask|].
  split; [apply count2_mask|].
  split; reflexivity.
Qed.

(** C5: the mask turns the cells equal to -0.01 into missing and keeps
    every other cell, in place; wavelengths, fwhm and the coordinates of
    the dataset are the ones it had, in cell 19 and in cell 34. *)
Theorem mask_frame :
  forall ds : Dataset,
    (forall i j k,
       lookup3 (reflectance (mask_ds ds)) i j k
       = option_map (fun v => if is_sentinel v then NaN else v)
           (lookup3 (reflectance ds) i j k)) /\
    wavelengths (mask_ds ds) = wavelengths ds /\
    fwhm (mask_ds ds) = fwhm ds /\
    coords (mask_ds ds) = coords ds /\
    (forall i j k,
       lookup3 (reflectance (mask_ds_geo ds)) i j k
       = option_map (fun v => if is_sentinel v then NaN else v)
           (lookup3 (reflectance ds) i j k)) /\
    wavelengths (mask_ds_geo ds) = wavelengths ds /\
    fwhm (mask_ds_geo ds) = fwhm ds /\
    coords (mask_ds_geo ds) = coords ds.
Proof.
  intros ds.
  assert (Hcells : forall i j k,
             lookup3 (mask_sentinel (reflectance ds)) i j k
             = option_map (fun v => if is_sentinel v then NaN else v)
                 (lookup3 (reflectance ds) i j k)).
  { intros i j k. rewrite lookup3_mask.
    destruct (lookup3 (reflectance ds) i j k) as [v|]; simpl; [|reflexivity].
    rewrite mask_val_cases. reflexivity. }
  repeat split; try reflexivity; exact Hcells.
Qed.

(** C8: masking twice is masking once, on the cube and on both datasets;
    a missing cell is not equal to -0.01, so the second pass keeps it. *)
Theorem mask_idempotent :
  (forall a : array3, mask_sentinel (mask_sentinel a) = mask_sentinel a) /\
  (forall ds : Dataset, mask_ds (mask_ds ds) = mask_ds ds) /\
  (forall ds : Dataset, mask_ds_geo (mask_ds_geo ds) = mask_ds_geo ds) /\
  val_ne NaN sentinel = true.
Proof.
  split; [exact mask_sentinel_idem|].
  split; [|split; [|reflexivity]].
  - intros ds. unfold mask_ds, set_reflectance. simpl. f_equal.
    apply mask_sentinel_idem.
  - intros ds. unfold mask_ds_geo, ds_where. simpl. f_equal.
    apply mask_sentinel_idem.
Qed.

(* --------------------------------------------------------------------- *)
(** ** Nearest band *)
(* --------------------------------------------------------------------- *)

Lemma replace_nan_dist (wl : array1) (t : R) :
  replace_nan (map val_abs (map (fun w => val_sub w t) wl))
  = (map (xdist t) wl, map is_missing wl).
Proof.
  unfold replace_nan. rewrite !map_map. f_equal; apply map_ext;
    intros [|x]; reflexivity.
Qed.

Lemma xdist_not_nan (t : R) (w : val) : is_xnan (xdist t w) = false.
Proof. destruct w; reflexivity. Qed.

Lemma xle_refl (a : xval) : is_xnan a = false -> xle a a.
Proof. destruct a; simpl; intros H; [discriminate|exact I|lra]. Qed.

Lemma xle_trans (a b c : xval) : xle a b -> xle b c -> xle a c.
Proof. destruct a, b, c; simpl; intros; try tauto; lra. Qed.

Lemma xmin_spec (a b : xval) :
  is_xnan a = false -> is_xnan b = false ->
  is_xnan (xmin a b) = false /\ (xmin a b = a \/ xmin a b = b) /\
  xle (xmin a b) a /\ xle (xmin a b) b.
Proof.
  destruct a as [| |x], b as [| |y]; simpl; intros Ha Hb;
    try discriminate; try (repeat split; auto; lra).
  unfold Rmin. destruct (Rle_dec x y); repeat split; auto; lra.
Qed.

Lemma fold_min_spec (l : list xval) (x : xval) :
  is_xnan x = false -> Forall (fun v => is_xnan v = false) l ->
  let m := fold_left xmin l x in
  is_xnan m = false /\ In m (x :: l) /\ forall v, In v (x :: l) -> xle m v.
Proof.
  revert x. induction l as [|a l IH]; intros x Hx Hl; simpl.
  - repeat split; auto. intros v [<-|[]]. apply xle_refl, Hx.
  - inversion Hl as [|? ? Ha Hl']; subst.
    destruct (xmin_spec x a Hx Ha) as (Hn & Hin & Hlx & Hla).
    destruct (IH (xmin x a) Hn Hl') as (Hm & Hmin & Hall).
    simpl in Hmin. split; [exact Hm|]. split.
    + destruct Hmin as [Hmin|Hmin]; [|auto].
      rewrite <- Hmin. destruct Hin as [->| ->]; auto.
    + intros v [<-|[<-|Hv]].
      * eapply xle_trans; [apply Hall; left; reflexivity|exact Hlx].
      * eapply xle_trans; [apply Hall; left; reflexivity|exact Hla].
      * apply Hall. right. exact Hv.
Qed.

Lemma first_index_spec {A} (p : A -> bool) (l : list A) :
  (exists v, In v l /\ p v = true) ->
  exists v, nth_error l (first_index p l) = Some v /\ p v = true /\
    forall j u, (j < first_index p l)%nat -> nth_error l j = Some u -> p u = false.
Proof.
  induction l as [|a l IH]; intros (v & Hin & Hp); [destruct Hin|].
  simpl. destruct (p a) eqn:Ea.
  - exists a. repeat split; auto. intros j u Hj. lia.
  - destruct Hin as [->|Hin]; [congruence|].
    destruct (IH (ex_intro _ v (conj Hin Hp))) as (v' & Hn & Hpv & Hbefore).
    exists v'. repeat split; auto.
    intros [|j] u Hj Hu; simpl in Hu.
    + inversion Hu; subst. exact Ea.
    + apply (Hbefore j u); [lia|exact Hu].
Qed.

Lemma xeqb_eq (a b : xval) : xeqb a b = true -> a = b.
Proof.
  destruct a as [| |x], b as [| |y]; simpl; try discriminate; auto.
  destruct (Req_dec_T x y); [congruence|discriminate].
Qed.

Lemma xeqb_refl (a : xval) : is_xnan a = false -> xeqb a a = true.
Proof.
  destruct a as [| |x]; simpl; try discriminate; auto.
  intros _. destruct (Req_dec_T x x); [reflexivity|contradiction].
Qed.

(** [np.argmin] of a distance array with a band that has a wavelength. *)
Lemma np_argmin_dist (wl : array1) (t : R) :
  (exists w, In (Num w) wl) ->
  exists i, np_argmin (map (xdist t) wl) = Ok i /\ first_nearest wl t i.
Proof.
  intros (w0 & Hw0).
  destruct wl as [|h wl']; [destruct Hw0|].
  set (wl := h :: wl') in *.
  assert (Hnn : Forall (fun v => is_xnan v = false) (map (xdist t) wl')).
  { apply Forall_forall. intros v Hv. apply in_map_iff in Hv.
    destruct Hv as (u & <- & _). apply xdist_not_nan. }
  destruct (fold_min_spec (map (xdist t) wl') (xdist t h)
              (xdist_not_nan t h) Hnn) as (Hm & Hin & Hmin).
  remember (fold_left xmin (map (xdist t) wl') (xdist t h)) as m eqn:Em.
  change (xdist t h :: map (xdist t) wl') with (map (xdist t) wl) in Hin, Hmin.
  assert (Hd0 : xle m (XNum (Rabs (w0 - t)))).
  { apply Hmin. apply in_map_iff. exists (Num w0). split; [reflexivity|exact Hw0]. }
  destruct m as [| |d]; simpl in Hd0; try contradiction.
  set (p := fun v : xval => is_xnan (XNum d) && is_xnan v || xeqb v (XNum d)).
  destruct (first_index_spec p (map (xdist t) wl)) as (v & Hnth & Hpv & Hbefore).
  { exists (XNum d). split; [exact Hin|]. unfold p. simpl.
    destruct (Req_dec_T d d); [reflexivity|contradiction]. }
  exists (first_index p (map (xdist t) wl)). split.
  { unfold np_argmin, wl, p. simpl map. cbv beta iota zeta. rewrite <- Em. reflexivity. }
  unfold p in Hpv. simpl in Hpv. apply xeqb_eq in Hpv. subst v.
  rewrite nth_error_map in Hnth.
  destruct (nth_error wl (first_index p (map (xdist t) wl))) as [w|] eqn:Ew;
    [|discriminate].
  destruct w as [|x]; simpl in Hnth; [discriminate|].
  exists x. split; [exact Ew|].
  assert (Hd : d = Rabs (x - t)) by congruence.
  intros j w' Hj. split.
  - assert (Hle : xle (XNum d) (XNum (Rabs (w' - t)))).
    { apply Hmin. apply in_map_iff. exists (Num w'). split; [reflexivity|].
      eapply nth_error_In; exact Hj. }
    simpl in Hle. lra.
  - intros Hlt.
    assert (Hle : xle (XNum d) (XNum (Rabs (w' - t)))).
    { apply Hmin. apply in_map_iff. exists (Num w'). split; [reflexivity|].
      eapply nth_error_In; exact Hj. }
    simpl in Hle.
    assert (Hpj : p (XNum (Rabs (w' - t))) = false).
    { apply (Hbefore j); [exact Hlt|]. rewrite nth_error_map, Hj. reflexivity. }
    unfold p in Hpj. simpl in Hpj.
    destruct (Req_dec_T (Rabs (w' - t)) d); [discriminate|]. lra.
Qed.

Lemma all_missing_spec (wl : array1) :
  forallb (fun b => b) (map is_missing wl) = true <-> ~ exists w, In (Num w) wl.
Proof.
  induction wl as [|v wl IH]; simpl.
  - split; [intros _ (w & [])|reflexivity].
  - destruct v as [|x]; simpl.
    + rewrite IH. split.
      * intros H (w & [Hw|Hw]); [discriminate|]. apply H. exists w. exact Hw.
      * intros H (w & Hw). apply H. exists w. right. exact Hw.
    + split; [discriminate|]. intros H. exfalso. apply H. exists x. left. reflexivity.
Qed.

(** What the lookup returns: the first nearest band when some band has a
    wavelength, [ValueError] when none has. *)
Lemma nearest_band_spec (wl : array1) (t : R) :
  ((exists w, In (Num w) wl) ->
     exists i, nearest_band wl t = Ok i /\ first_nearest wl t i) /\
  ((~ exists w, In (Num w) wl) -> nearest_band wl t = Raise ValueError).
Proof.
  unfold nearest_band, np_nanargmin. rewrite replace_nan_dist.
  split.
  - intros Hv.
    destruct (forallb (fun b => b) (map is_missing wl)) eqn:Eall.
    + apply all_missing_spec in Eall. contradiction.
    + rewrite andb_false_r. apply np_argmin_dist. exact Hv.
  - intros Hnone. destruct wl as [|v wl']; [reflexivity|].
    apply all_missing_spec in Hnone. rewrite Hnone. reflexivity.
Qed.

(** The scan keeps the best band so far: at the end it holds either the
    entry it started with, still unbeaten, or the first band of the rest
    that beats the start and every band of the rest. *)
Lemma scan_from_spec (t : R) (wl : array1) :
  forall (i : nat) (best : option (nat * R)),
  match scan_from wl t i best with
  | None => best = None /\ ~ exists w, In (Num w) wl
  | Some (k, d) =>
      (best = Some (k, d) /\
       forall j w', nth_error wl j = Some (Num w') -> d <= Rabs (w' - t))
      \/
      (exists j0 w,
         k = (i + j0)%nat /\ nth_error wl j0 = Some (Num w) /\
         d = Rabs (w - t) /\
         (forall k0 bd, best = Some (k0, bd) -> d < bd) /\
         forall j w', nth_error wl j = Some (Num w') ->
           d <= Rabs (w' - t) /\ ((j < j0)%nat -> d < Rabs (w' - t)))
  end.
Proof.
  induction wl as [|w wl IH]; intros i best; simpl.
  - destruct best as [[k d]|].
    + left. split; [reflexivity|]. intros [|j] w' H; discriminate.
    + split; [reflexivity|]. intros (w & []).
  - destruct w as [|x].
    + (* a band without wavelength *)
      specialize (IH (S i) best).
      destruct (scan_from wl t (S i) best) as [[k d]|].
      * destruct IH as [(Hb & Hall)|(j0 & w & Hk & Hn & Hd & Hbd & Hall)].
        -- left. split; [exact Hb|].
           intros [|j] w' H; simpl in H; [discriminate|eauto].
        -- right. exists (S j0), w.
           split; [lia|]. split; [exact Hn|]. split; [exact Hd|].
           split; [exact Hbd|].
           intros [|j] w' H; simpl in H; [discriminate|].
           destruct (Hall j w' H) as (Hle & Hlt).
           split; [exact Hle|]. intros Hj. apply Hlt. lia.
      * destruct IH as (Hb & Hnone). split; [exact Hb|].
        intros (w & [Hw|Hw]); [discriminate|]. apply Hnone. exists w. exact Hw.
    + (* a band with wavelength [x] *)
      set (d0 := Rabs (x - t)).
      assert (Hstep :
        forall best' : option (nat * R),
          (best' = Some (i, d0) /\ (forall k0 bd, best = Some (k0, bd) -> d0 < bd))
          \/ (best' = best /\ exists k0 bd, best = Some (k0, bd) /\ bd <= d0) ->
          match scan_from wl t (S i) best' with
          | None => best = None /\ ~ exists w, In (Num w) (Num x :: wl)
          | Some (k, d) =>
              (best = Some (k, d) /\
               forall j w', nth_error (Num x :: wl) j = Some (Num w') ->
                 d <= Rabs (w' - t))
              \/
              (exists j0 w,
                 k = (i + j0)%nat /\ nth_error (Num x :: wl) j0 = Some (Num w) /\
                 d = Rabs (w - t) /\
                 (forall k0 bd, best = Some (k0, bd) -> d < bd) /\
                 forall j w', nth_error (Num x :: wl) j = Some (Num w') ->
                   d <= Rabs (w' - t) /\ ((j < j0)%nat -> d < Rabs (w' - t)))
          end).
      { intros best' Hbest'. specialize (IH (S i) best').
        destruct (scan_from wl t (S i) best') as [[k d]|].
        - destruct Hbest' as [(-> & Hbeat)|(-> & k0 & bd & Hb & Hle)].
          + destruct IH as [(Hb & Hall)|(j0 & w & Hk & Hn & Hd & Hbd & Hall)].
            * (* [x] is still the best at the end *)
              inversion Hb; subst k d. right. exists 0%nat, x.
              split; [lia|]. split; [reflexivity|]. split; [reflexivity|].
              split; [exact Hbeat|].
              intros [|j] w' H; simpl in H.
              -- inversion H; subst. split; [unfold d0; lra|lia].
              -- split; [apply (Hall j w' H)|lia].
            * (* a later band beat [x] *)
              pose proof (Hbd i d0 eq_refl) as Hlt.
              right. exists (S j0), w.
              split; [lia|]. split; [exact Hn|]. split; [exact Hd|].
              split.
              { intros k0 bd Hb. specialize (Hbeat k0 bd Hb). lra. }
              intros [|j] w' H; simpl in H.
              -- inversion H; subst. fold d0. split; [lra|intros _; lra].
              -- destruct (Hall j w' H) as (Hle & Hlt').
                 split; [exact Hle|]. intros Hj. apply Hlt'. lia.
          + destruct IH as [(Hb' & Hall)|(j0 & w & Hk & Hn & Hd & Hbd & Hall)].
            * (* the start entry survives [x] and the rest *)
              left. split; [exact Hb'|].
              assert (d = bd) by congruence. subst d.
              intros [|j] w' H; simpl in H.
              -- inversion H; subst. fold d0. lra.
              -- apply (Hall j w' H).
            * pose proof (Hbd k0 bd Hb) as Hlt.
              right. exists (S j0), w.
              split; [lia|]. split; [exact Hn|]. split; [exact Hd|].
              split; [exact Hbd|].
              intros [|j] w' H; simpl in H.
              -- inversion H; subst. fold d0. split; [lra|intros _; lra].
              -- destruct (Hall j w' H) as (Hle' & Hlt').
                 split; [exact Hle'|]. intros Hj. apply Hlt'. lia.
        - destruct IH as (Hb & _).
          destruct Hbest' as [(-> & _)|(-> & k0 & bd & Hb' & _)]; congruence. }
      destruct best as [[kb bd]|].
      * fold d0. destruct (Rlt_dec d0 bd) as [Hlt|Hge]; apply Hstep.
        -- left. split; [reflexivity|]. intros k0 bd0 H. inversion H; subst. exact Hlt.
        -- right. split; [reflexivity|]. exists kb, bd. split; [reflexivity|lra].
      * apply Hstep. left. split; [reflexivity|]. intros k0 bd H. discriminate.
Qed.

Lemma linear_scan_spec (wl : array1) (t : R) :
  ((exists w, In (Num w) wl) ->
     exists i, linear_scan_nearest wl t = Ok i /\ first_nearest wl t i) /\
  ((~ exists w, In (Num w) wl) -> linear_scan_nearest wl t = Raise ValueError).
Proof.
  unfold linear_scan_nearest.
  pose proof (scan_from_spec t wl 0 None) as H.
  destruct (scan_from wl t 0 None) as [[k d]|].
  - destruct H as [(Hb & _)|(j0 & w & Hk & Hn & Hd & _ & Hall)]; [discriminate|].
    simpl in Hk. subst k d. split.
    + intros _. exists j0. split; [reflexivity|]. exists w. split; [exact Hn|exact Hall].
    + intros Hnone. exfalso. apply Hnone. exists w. eapply nth_error_In. exact Hn.
  - destruct H as (_ & Hnone). split; [intros Hv; contradiction|reflexivity].
Qed.

Lemma first_nearest_unique (wl : array1) (t : R) (i i' : nat) :
  first_nearest wl t i -> first_nearest wl t i' -> i = i'.
Proof.
  intros (w & Hw & Hall) (w' & Hw' & Hall').
  destruct (Hall i' w' Hw') as (Hle & Hlt).
  destruct (Hall' i w Hw) as (Hle' & Hlt').
  destruct (Nat.lt_trichotomy i i') as [Hc|[Hc|Hc]]; [|exact Hc|].
  - specialize (Hlt' Hc). lra.
  - specialize (Hlt Hc). lra.
Qed.

Lemma has_wavelength_dec (wl : array1) :
  (exists w, In (Num w) wl) \/ ~ (exists w, In (Num w) wl).
Proof.
  destruct (forallb (fun b => b) (map is_missing wl)) eqn:E.
  - right. apply all_missing_spec. exact E.
  - left. induction wl as [|v wl IH]; [discriminate|].
    destruct v as [|x]; simpl in E.
    + destruct (IH E) as (w & Hw). exists w. right. exact Hw.
    + exists x. left. reflexivity.
Qed.

(** Three bands around the red target; the second is the nearest. *)
Example nearest_band_example :
  nearest_band [Num 642; Num 649.5; NaN; Num 657] 650 = Ok 1%nat.
Proof.
  unfold nearest_band, np_nanargmin. rewrite replace_nan_dist. simpl.
  replace (Rabs (642 - 650)) with 8 by (rewrite Rabs_left; lra).
  replace (Rabs (649.5 - 650)) with 0.5 by (rewrite Rabs_left; lra).
  replace (Rabs (657 - 650)) with 7 by (rewrite Rabs_right; lra).
  unfold Rmin. rdecide. simpl. rdecide. reflexivity.
Qed.

Example nearest_band_all_missing : nearest_band [NaN; NaN] 650 = Raise ValueError.
Proof. reflexivity. Qed.

Example nearest_band_empty : nearest_band [] 650 = Raise ValueError.
Proof. reflexivity. Qed.

(** Two bands at the same distance: the first one is returned. *)
Example nearest_band_tie : nearest_band [Num 640; Num 660] 650 = Ok 0%nat.
Proof.
  unfold nearest_band, np_nanargmin. rewrite replace_nan_dist. simpl.
  replace (Rabs (640 - 650)) with 10 by (rewrite Rabs_left; lra).
  replace (Rabs (660 - 650)) with 10 by (rewrite Rabs_right; lra).
  unfold Rmin. rdecide. reflexivity.
Qed.

Example linear_scan_example :
  linear_scan_nearest [Num 642; Num 649.5; NaN; Num 657] 650 = Ok 1%nat.
Proof.
  unfold linear_scan_nearest. simpl.
  replace (Rabs (642 - 650)) with 8 by (rewrite Rabs_left; lra).
  replace (Rabs (649.5 - 650)) with 0.5 by (rewrite Rabs_left; lra).
  replace (Rabs (657 - 650)) with 7 by (rewrite Rabs_right; lra).
  rdecide. reflexivity.
Qed.

(** C1: for every wavelength array and every target (650, 560 and 470
    among them) [np.nanargmin(abs(wavelengths - target))] and the linear
    scan give the same result; when it is an index, that band is the first
    one at minimal distance from the target, and it is an index as soon as
    one band has a wavelength. *)
Theorem nearest_band_linear_scan :
  forall (wl : array1) (target : R),
    nearest_band wl target = linear_scan_nearest wl target /\
    (forall i, nearest_band wl target = Ok i -> first_nearest wl target i) /\
    ((exists w, In (Num w) wl) -> exists i, nearest_band wl target = Ok i).
Proof.
  intros wl t.
  destruct (nearest_band_spec wl t) as (Hn1 & Hn2).
  destruct (linear_scan_spec wl t) as (Hl1 & Hl2).
  destruct (has_wavelength_dec wl) as [Hv|Hv].
  - destruct (Hn1 Hv) as (i & Hi & Hfi).
    destruct (Hl1 Hv) as (i' & Hi' & Hfi').
    assert (i = i') by (eapply first_nearest_unique; eauto). subst i'.
    split; [congruence|]. split.
    + intros j Hj. assert (j = i) by congruence. subst j. exact Hfi.
    + intros _. exists i. exact Hi.
  - rewrite (Hn2 Hv), (Hl2 Hv). split; [reflexivity|].
    split; [discriminate|]. intros Hv'. contradiction.
Qed.

(** The lookup of cell 38 on a four-band axis, through the theorem. *)
Lemma nearest_band_linear_scan_witness :
  (exists w, In (Num w) [Num 642; Num 649.5; NaN; Num 657]) /\
  linear_scan_nearest [Num 642; Num 649.5; NaN; Num 657] 650 = Ok 1%nat /\
  first_nearest [Num 642; Num 649.5; NaN; Num 657] 650 1.
Proof.
  destruct (nearest_band_linear_scan [Num 642; Num 649.5; NaN; Num 657] 650)
    as (Heq & Hfirst & _).
  split; [exists 642; left; reflexivity|].
  split.
  - rewrite <- Heq. exact nearest_band_example.
  - apply Hfirst. exact nearest_band_example.
Defined.

(* --------------------------------------------------------------------- *)
(** ** Gamma scaling *)
(* --------------------------------------------------------------------- *)

Lemma ln_fifth_neg : ln 0.2 < 0.
Proof. rewrite <- ln_1. apply ln_increasing; lra. Qed.

Lemma math_log_fifth : math_log (Num 0.2) = Ok (Num (ln 0.2)).
Proof. unfold math_log. destruct (Rle_dec 0.2 0); [lra|reflexivity]. Qed.

(** The exponent by the mean of the plane. *)
Lemma gamma_exponent_missing (array : array2) :
  np_nanmean array = NaN -> gamma_exponent array = Ok NaN.
Proof.
  intros Hm. unfold gamma_exponent. rewrite math_log_fifth, Hm. reflexivity.
Qed.

Lemma gamma_exponent_nonpositive (array : array2) (m : R) :
  np_nanmean array = Num m -> m <= 0 ->
  gamma_exponent array = Raise ValueError.
Proof.
  intros Hm Hle. unfold gamma_exponent. rewrite math_log_fifth, Hm. simpl.
  destruct (Rle_dec m 0); [reflexivity|contradiction].
Qed.

Lemma gamma_exponent_one (array : array2) :
  np_nanmean array = Num 1 ->
  gamma_exponent array = Raise ZeroDivisionError.
Proof.
  intros Hm. unfold gamma_exponent. rewrite math_log_fifth, Hm. simpl.
  destruct (Rle_dec 1 0); [lra|]. simpl. rewrite ln_1.
  destruct (Req_dec_T 0 0); [reflexivity|contradiction].
Qed.

Lemma gamma_exponent_ok (array : array2) (m : R) :
  np_nanmean array = Num m -> 0 < m -> m <> 1 ->
  gamma_exponent array = Ok (Num (ln 0.2 / ln m)).
Proof.
  intros Hm Hpos Hne. unfold gamma_exponent. rewrite math_log_fifth, Hm. simpl.
  destruct (Rle_dec m 0); [lra|]. simpl.
  destruct (Req_dec_T (ln m) 0) as [E|_]; [|reflexivity].
  exfalso. exact (ln_neq_0 m Hne Hpos E).
Qed.

Lemma gamma_exponent_returns (array : array2) (m : R) (g : val) :
  np_nanmean array = Num m -> gamma_exponent array = Ok g ->
  0 < m /\ m <> 1 /\ g = Num (ln 0.2 / ln m).
Proof.
  intros Hm Hg.
  destruct (Rle_dec m 0) as [Hle|Hpos].
  { rewrite (gamma_exponent_nonpositive array m Hm Hle) in Hg. discriminate. }
  destruct (Req_dec_T m 1) as [->|Hne].
  { rewrite (gamma_exponent_one array Hm) in Hg. discriminate. }
  assert (0 < m) by lra.
  rewrite (gamma_exponent_ok array m Hm) in Hg by assumption.
  repeat split; [assumption|assumption|congruence].
Qed.

Lemma gamma_adjust_unfold (ds : Dataset) (band : nat) (array : array2) :
  isel_bands band (reflectance ds) = Ok array ->
  gamma_adjust ds band
  = rbind (gamma_exponent array) (fun gamma => Ok (gamma_scale array gamma)).
Proof. intros H. unfold gamma_adjust. rewrite H. reflexivity. Qed.

Lemma gamma_adjust_ok (ds : Dataset) (band : nat) (array : array2) (m : R) :
  isel_bands band (reflectance ds) = Ok array ->
  np_nanmean array = Num m -> 0 < m -> m <> 1 ->
  gamma_adjust ds band = Ok (gamma_scale array (Num (ln 0.2 / ln m))).
Proof.
  intros Hsel Hm Hpos Hne.
  rewrite (gamma_adjust_unfold ds band array Hsel).
  rewrite (gamma_exponent_ok array m Hm Hpos Hne). reflexivity.
Qed.

Lemma gamma_adjust_returns (ds : Dataset) (band : nat) (out : array2) :
  gamma_adjust ds band = Ok out ->
  exists array gamma,
    isel_bands band (reflectance ds) = Ok array /\
    gamma_exponent array = Ok gamma /\ out = gamma_scale array gamma.
Proof.
  unfold gamma_adjust. intros H.
  destruct (isel_bands band (reflectance ds)) as [array|]; [|discriminate].
  change (rbind (gamma_exponent array)
            (fun gamma => Ok (gamma_scale array gamma)) = Ok out) in H.
  destruct (gamma_exponent array) as [gamma|] eqn:Eg; [|discriminate].
  exists array, gamma. simpl in H. inversion H.
  split; [reflexivity|]. split; [exact Eg|reflexivity].
Qed.

Lemma lookup2_gamma_scale (array : array2) (gamma : val) (i j : nat) :
  lookup2 (gamma_scale array gamma) i j
  = option_map (fun v => nan_to_num 1 (np_clip 0 1 (np_power v gamma)))
      (lookup2 array i j).
Proof.
  unfold gamma_scale, lookup2, array2, array1 in *.
  rewrite map_map, nth_error_map.
  destruct (nth_error array i) as [row|]; simpl; [|reflexivity].
  rewrite map_map, nth_error_map. reflexivity.
Qed.

(** The real identity behind the scaling: [m ** (ln 0.2 / ln m) = 0.2]. *)
Lemma power_mean (m : R) :
  0 < m -> m <> 1 -> np_power (Num m) (Num (ln 0.2 / ln m)) = XNum 0.2.
Proof.
  intros Hpos Hne. pose proof (ln_neq_0 m Hne Hpos) as Hln.
  pose proof ln_fifth_neg as H02.
  unfold np_power.
  destruct (Req_dec_T (ln 0.2 / ln m) 0) as [E|_].
  { exfalso. apply (f_equal (fun z => z * ln m)) in E.
    unfold Rdiv in E. rewrite Rmult_assoc, Rinv_l, Rmult_1_r, Rmult_0_l in E by exact Hln.
    lra. }
  destruct (Rlt_dec 0 m); [|contradiction].
  f_equal. unfold Rpower.
  replace (ln 0.2 / ln m * ln m) with (ln 0.2) by (field; exact Hln).
  apply exp_ln. lra.
Qed.

Lemma clip_unit (x : R) : 0 <= x <= 1 -> np_clip 0 1 (XNum x) = Num x.
Proof.
  intros Hx. unfold np_clip, Rmin, Rmax. f_equal.
  destruct (Rle_dec x 0); destruct (Rle_dec _ 1); lra.
Qed.

Lemma scaled_cell_unit (v gamma : val) :
  exists x, nan_to_num 1 (np_clip 0 1 (np_power v gamma)) = Num x /\ 0 <= x <= 1.
Proof.
  destruct (np_power v gamma) as [| |x]; simpl.
  - exists 1. split; [reflexivity|lra].
  - exists 1. split; [reflexivity|lra].
  - exists (Rmin (Rmax x 0) 1). split; [reflexivity|].
    unfold Rmin, Rmax. destruct (Rle_dec x 0); destruct (Rle_dec _ 1); lra.
Qed.

(** C2: when [gamma_adjust] scales a band whose valid values have mean
    [m], the exponent is [ln 0.2 / ln m], [m] to that power is 0.2, and
    every cell holding [m] comes out as 0.2, the clip leaving it alone. *)
Theorem gamma_maps_mean_to_fifth :
  forall (ds : Dataset) (band : nat) (array out : array2) (m : R),
    isel_bands band (reflectance ds) = Ok array ->
    np_nanmean array = Num m ->
    gamma_adjust ds band = Ok out ->
    gamma_exponent array = Ok (Num (ln 0.2 / ln m)) /\
    np_power (Num m) (Num (ln 0.2 / ln m)) = XNum 0.2 /\
    Rpower m (ln 0.2 / ln m) = 0.2 /\
    np_clip 0 1 (XNum 0.2) = Num 0.2 /\
    forall i j, lookup2 array i j = Some (Num m) ->
                lookup2 out i j = Some (Num 0.2).
Proof.
  intros ds band array out m Hsel Hm Hout.
  destruct (gamma_adjust_returns ds band out Hout) as (array' & gamma & Hsel' & Hg & ->).
  assert (array' = array) by congruence. subst array'.
  destruct (gamma_exponent_returns array m gamma Hm Hg) as (Hpos & Hne & ->).
  pose proof (power_mean m Hpos Hne) as Hpow.
  assert (Hclip : np_clip 0 1 (XNum 0.2) = Num 0.2) by (apply clip_unit; lra).
  split; [exact Hg|]. split; [exact Hpow|]. split.
  { unfold np_power in Hpow.
    destruct (Req_dec_T (ln 0.2 / ln m) 0); [inversion Hpow; lra|].
    destruct (Rlt_dec 0 m); [|contradiction]. congruence. }
  split; [exact Hclip|].
  intros i j Hij. rewrite lookup2_gamma_scale, Hij. unfold option_map.
  rewrite Hpow, Hclip. reflexivity.
Qed.

Lemma mean_ds_mean : np_nanmean [[Num 0.3; Num 0.5; Num 0.7]] = Num 0.5.
Proof. unfold np_nanmean. simpl. f_equal. lra. Qed.

(** The middle pixel of [mean_ds] holds the mean and comes out as 0.2. *)
Lemma gamma_maps_mean_to_fifth_witness :
  isel_bands 0 (reflectance mean_ds) = Ok [[Num 0.3; Num 0.5; Num 0.7]] /\
  np_nanmean [[Num 0.3; Num 0.5; Num 0.7]] = Num 0.5 /\
  gamma_adjust mean_ds 0
  = Ok (gamma_scale [[Num 0.3; Num 0.5; Num 0.7]] (Num (ln 0.2 / ln 0.5))) /\
  lookup2 (gamma_scale [[Num 0.3; Num 0.5; Num 0.7]] (Num (ln 0.2 / ln 0.5))) 0 1
  = Some (Num 0.2).
Proof.
  assert (Hsel : isel_bands 0 (reflectance mean_ds)
                 = Ok [[Num 0.3; Num 0.5; Num 0.7]]) by reflexivity.
  assert (Hout : gamma_adjust mean_ds 0
                 = Ok (gamma_scale [[Num 0.3; Num 0.5; Num 0.7]]
                         (Num (ln 0.2 / ln 0.5)))).
  { apply (gamma_adjust_ok mean_ds 0 _ 0.5 Hsel mean_ds_mean); lra. }
  split; [exact Hsel|]. split; [exact mean_ds_mean|]. split; [exact Hout|].
  apply (gamma_maps_mean_to_fifth mean_ds 0 _ _ 0.5 Hsel mean_ds_mean Hout).
  reflexivity.
Defined.

(** A band without any valid value is scaled all the same: the exponent
    is NaN and every cell comes out as 1. *)
Lemma gamma_adjust_all_missing (ds : Dataset) (band : nat) (array : array2) :
  isel_bands band (reflectance ds) = Ok array ->
  np_nanmean array = NaN ->
  gamma_adjust ds band = Ok (gamma_scale array NaN).
Proof.
  intros Hsel Hm. rewrite (gamma_adjust_unfold ds band array Hsel).
  rewrite (gamma_exponent_missing array Hm). reflexivity.
Qed.

Example gamma_adjust_missing_band :
  gamma_adjust (mkDataset [[[NaN]; [NaN]]] [Num 650] [Num 8.5] []) 0
  = Ok [[Num 1; Num 1]].
Proof.
  rewrite (gamma_adjust_all_missing
             (mkDataset [[[NaN]; [NaN]]] [Num 650] [Num 8.5] []) 0
             [[NaN; NaN]] eq_refl eq_refl).
  reflexivity.
Qed.

(** Zero under a negative exponent is +inf, which the clip brings to 1. *)
Example zero_cell_negative_exponent :
  nan_to_num 1 (np_clip 0 1 (np_power (Num 0) (Num (-1)))) = Num 1.
Proof. unfold np_power. rdecide. reflexivity. Qed.



(** The two ways out by an exception, on one-pixel bands. *)
Example gamma_adjust_mean_one :
  gamma_adjust (mkDataset [[[Num 1]]] [Num 650] [Num 8.5] []) 0
  = Raise ZeroDivisionError.
Proof.
  rewrite (gamma_adjust_unfold
             (mkDataset [[[Num 1]]] [Num 650] [Num 8.5] []) 0 [[Num 1]] eq_refl).
  rewrite gamma_exponent_one; [reflexivity|].
  unfold np_nanmean. simpl. f_equal. lra.
Qed.

Example gamma_adjust_mean_negative :
  gamma_adjust (mkDataset [[[Num (-0.01)]]] [Num 650] [Num 8.5] []) 0
  = Raise ValueError.
Proof.
  rewrite (gamma_adjust_unfold
             (mkDataset [[[Num (-0.01)]]] [Num 650] [Num 8.5] []) 0
             [[Num (-0.01)]] eq_refl).
  rewrite (gamma_exponent_nonpositive _ (-0.01)); [reflexivity| |lra].
  unfold np_nanmean. simpl. f_equal. lra.
Qed.

(* --------------------------------------------------------------------- *)
(** ** Stacking the scaled bands *)
(* --------------------------------------------------------------------- *)

Lemma rect2_shape {A} (rows cols : nat) (a : list (list A)) :
  rect2 rows cols a ->
  shape2 a = (rows, match rows with O => O | S _ => cols end).
Proof.
  intros (Hlen & Hrows). unfold shape2. subst rows.
  destruct a as [|row a]; simpl; [reflexivity|].
  inversion Hrows; subst. reflexivity.
Qed.

Lemma shape_eqb_refl (s : nat * nat) : shape_eqb s s = true.
Proof. unfold shape_eqb. rewrite !Nat.eqb_refl. reflexivity. Qed.

Lemma np_stack_three (rows cols : nat) (r g b : array2) :
  rect2 rows cols r -> rect2 rows cols g -> rect2 rows cols b ->
  np_stack [r; g; b] = Ok [r; g; b].
Proof.
  intros Hr Hg Hb. unfold np_stack, forallb.
  rewrite (rect2_shape rows cols r Hr), (rect2_shape rows cols g Hg),
    (rect2_shape rows cols b Hb), shape_eqb_refl. reflexivity.
Qed.

Lemma gamma_adjust_range (ds : Dataset) (band : nat) (out : array2) :
  gamma_adjust ds band = Ok out ->
  forall i j v, lookup2 out i j = Some v -> exists x, v = Num x /\ 0 <= x <= 1.
Proof.
  intros Hout i j v Hv.
  destruct (gamma_adjust_returns ds band out Hout) as (array & gamma & _ & _ & ->).
  rewrite lookup2_gamma_scale in Hv.
  destruct (lookup2 array i j) as [u|]; [|discriminate].
  simpl in Hv. inversion Hv as [Hv'].
  destruct (scaled_cell_unit u gamma) as (x & Hx & Hrange).
  exists x. split; [exact Hx|exact Hrange].
Qed.

(** The scaled plane has the rows and columns of the cube. *)
Lemma traverse_length {A B} (f : A -> result B) (l : list A) (l' : list B) :
  traverse f l = Ok l' -> length l' = length l.
Proof.
  revert l'. induction l as [|a l IH]; intros l' H; simpl in H.
  - inversion H. reflexivity.
  - destruct (f a); [|discriminate]. simpl in H.
    destruct (traverse f l) as [bs|]; [|discriminate].
    simpl in H. inversion H. simpl. f_equal. apply IH. reflexivity.
Qed.

Lemma traverse_Forall2 {A B} (f : A -> result B) (l : list A) (l' : list B) :
  traverse f l = Ok l' -> Forall2 (fun a b => f a = Ok b) l l'.
Proof.
  revert l'. induction l as [|a l IH]; intros l' H; simpl in H.
  - inversion H. constructor.
  - destruct (f a) eqn:Ea; [|discriminate]. simpl in H.
    destruct (traverse f l) as [bs|]; [|discriminate].
    simpl in H. inversion H. constructor; [exact Ea|]. apply IH. reflexivity.
Qed.

Lemma isel_bands_shape (band rows cols : nat) (a : array3) (plane : array2) :
  rect2 rows cols a -> isel_bands band a = Ok plane -> rect2 rows cols plane.
Proof.
  intros (Hlen & Hrows) Hsel. unfold isel_bands in Hsel. split.
  - exact (eq_trans (traverse_length _ _ _ Hsel) Hlen).
  - apply traverse_Forall2 in Hsel. clear Hlen.
    induction Hsel as [|row prow a' plane' Hrow _ IH]; constructor.
    + apply Forall_inv in Hrows.
      exact (eq_trans (traverse_length _ _ _ Hrow) Hrows).
    + apply IH. apply Forall_inv_tail in Hrows. exact Hrows.
Qed.

Lemma gamma_scale_shape (rows cols : nat) (array : array2) (gamma : val) :
  rect2 rows cols array -> rect2 rows cols (gamma_scale array gamma).
Proof.
  intros (Hlen & Hrows). unfold gamma_scale. split.
  - rewrite !length_map. exact Hlen.
  - rewrite map_map. apply Forall_map.
    eapply Forall_impl; [|exact Hrows]. intros row Hrow.
    rewrite !length_map. exact Hrow.
Qed.

Lemma gamma_adjust_shape (ds : Dataset) (band rows cols : nat) (out : array2) :
  rect2 rows cols (reflectance ds) -> gamma_adjust ds band = Ok out ->
  rect2 rows cols out.
Proof.
  intros Hrect Hout.
  destruct (gamma_adjust_returns ds band out Hout) as (array & gamma & Hsel & _ & ->).
  apply gamma_scale_shape. eapply isel_bands_shape; eauto.
Qed.

(** C4: three scaled bands [r], [g], [b] of [rows] by [cols] cells stack
    into an array of shape (3, rows, cols), the three planes as they
    were, and every value of the stack lies in [0, 1]. *)
Theorem stack_shape_and_range :
  forall (ds : Dataset) (br bg bb : nat) (r g b : array2) (rows cols : nat),
    gamma_adjust ds br = Ok r ->
    gamma_adjust ds bg = Ok g ->
    gamma_adjust ds bb = Ok b ->
    rect2 rows cols r -> rect2 rows cols g -> rect2 rows cols b ->
    np_stack [r; g; b] = Ok [r; g; b] /\
    rgb_stack ds br bg bb = Ok [r; g; b] /\
    rect3 3 rows cols [r; g; b] /\
    forall c i j v, lookup3 [r; g; b] c i j = Some v ->
      exists x, v = Num x /\ 0 <= x <= 1.
Proof.
  intros ds br bg bb r g b rows cols Hr Hg Hb Rr Rg Rb.
  pose proof (np_stack_three rows cols r g b Rr Rg Rb) as Hstack.
  split; [exact Hstack|]. split.
  { unfold rgb_stack. rewrite Hr, Hg, Hb. exact Hstack. }
  split.
  { split; [reflexivity|].
    apply Forall_cons; [exact Rr|].
    apply Forall_cons; [exact Rg|].
    apply Forall_cons; [exact Rb|apply Forall_nil]. }
  intros c i j v Hv.
  assert (Hplane : forall band out k,
             gamma_adjust ds band = Ok out ->
             match nth_error out i with
             | Some row => nth_error row j
             | None => None
             end = Some k -> exists x, k = Num x /\ 0 <= x <= 1).
  { intros band out k Hout Hk.
    exact (gamma_adjust_range ds band out Hout i j k Hk). }
  unfold lookup3 in Hv.
  destruct c as [|[|[|c]]]; simpl in Hv.
  - exact (Hplane br r v Hr Hv).
  - exact (Hplane bg g v Hg Hv).
  - exact (Hplane bb b v Hb Hv).
  - destruct c; discriminate.
Qed.

Lemma sample_band_means :
  np_nanmean [[Num 0.3; Num 0.7]] = Num 0.5 /\
  np_nanmean [[Num 0.1; Num 0.3]] = Num 0.2 /\
  np_nanmean [[Num 0.02; Num 0.06]] = Num 0.04.
Proof. unfold np_nanmean. simpl. repeat split; f_equal; lra. Qed.

(** The red, green and blue planes of [sample_ds], one row of two
    pixels each. *)
Lemma stack_shape_and_range_witness :
  rect3 3 1 2
    [gamma_scale [[Num 0.02; Num 0.06]] (Num (ln 0.2 / ln 0.04));
     gamma_scale [[Num 0.1; Num 0.3]] (Num (ln 0.2 / ln 0.2));
     gamma_scale [[Num 0.3; Num 0.7]] (Num (ln 0.2 / ln 0.5))] /\
  rgb_stack sample_ds 2 1 0
  = Ok [gamma_scale [[Num 0.02; Num 0.06]] (Num (ln 0.2 / ln 0.04));
        gamma_scale [[Num 0.1; Num 0.3]] (Num (ln 0.2 / ln 0.2));
        gamma_scale [[Num 0.3; Num 0.7]] (Num (ln 0.2 / ln 0.5))].
Proof.
  destruct sample_band_means as (Hb & Hg & Hr).
  assert (R2 : forall a b gamma,
             rect2 1 2 (gamma_scale [[Num a; Num b]] gamma)).
  { intros a b gamma. split; [reflexivity|]. repeat constructor. }
  destruct (stack_shape_and_range sample_ds 2 1 0
              (gamma_scale [[Num 0.02; Num 0.06]] (Num (ln 0.2 / ln 0.04)))
              (gamma_scale [[Num 0.1; Num 0.3]] (Num (ln 0.2 / ln 0.2)))
              (gamma_scale [[Num 0.3; Num 0.7]] (Num (ln 0.2 / ln 0.5)))
              1 2) as (_ & Hrgb & Hshape & _).
  - apply (gamma_adjust_ok sample_ds 2 _ 0.04 eq_refl Hr); lra.
  - apply (gamma_adjust_ok sample_ds 1 _ 0.2 eq_refl Hg); lra.
  - apply (gamma_adjust_ok sample_ds 0 _ 0.5 eq_refl Hb); lra.
  - apply R2.
  - apply R2.
  - apply R2.
  - split; [exact Hshape|exact Hrgb].
Defined.

(* --------------------------------------------------------------------- *)
(** ** Negative reflectance *)
(* --------------------------------------------------------------------- *)

Lemma is_integer_one : is_integer 1 = true.
Proof.
  unfold is_integer.
  assert (H : 1%Z = Int_part 1) by (apply Int_part_spec; lra).
  rewrite <- H. destruct (Req_dec_T 1 1); [reflexivity|contradiction].
Qed.

Lemma is_integer_half : is_integer (1 / 2) = false.
Proof.
  unfold is_integer.
  destruct (Req_dec_T (IZR (Int_part (1 / 2))) (1 / 2)) as [E|_]; [|reflexivity].
  exfalso.
  assert (H : IZR (2 * Int_part (1 / 2)) = IZR 1) by (rewrite mult_IZR; lra).
  apply eq_IZR in H. lia.
Qed.

Lemma ln_fifth_squared : ln 0.04 = 2 * ln 0.2.
Proof.
  replace 0.04 with (0.2 * 0.2) by lra. rewrite ln_mult by lra. lra.
Qed.

(** A negative base under a whole exponent: the power is a number. *)
Lemma power_negative_one (x : R) :
  x < 0 -> np_power (Num x) (Num 1) = XNum x.
Proof.
  intros Hx. unfold np_power.
  destruct (Req_dec_T 1 0); [lra|].
  destruct (Rlt_dec 0 x); [lra|].
  destruct (Req_dec_T x 0); [lra|].
  rewrite is_integer_one.
  assert (H : 1%Z = Int_part 1) by (apply Int_part_spec; lra).
  rewrite <- H. f_equal. simpl. lra.
Qed.

(** A negative base under an exponent that is not whole: 1 after the
    clip and [nan_to_num], as for a missing cell. *)
Lemma scaled_negative_cell (x gamma : R) :
  x < 0 -> is_integer gamma = false ->
  nan_to_num 1 (np_clip 0 1 (np_power (Num x) (Num gamma))) = Num 1.
Proof.
  intros Hx Hg. unfold np_power.
  destruct (Req_dec_T gamma 0).
  { simpl. f_equal. unfold Rmin, Rmax.
    destruct (Rle_dec 1 0); destruct (Rle_dec _ 1); lra. }
  destruct (Rlt_dec 0 x); [lra|].
  destruct (Req_dec_T x 0); [lra|].
  rewrite Hg. reflexivity.
Qed.

Lemma scaled_missing_cell (gamma : val) :
  nan_to_num 1 (np_clip 0 1 (np_power NaN gamma)) = Num 1.
Proof.
  destruct gamma as [|y]; simpl; [reflexivity|].
  destruct (Req_dec_T y 0); simpl; [|reflexivity].
  f_equal. unfold Rmin, Rmax.
  destruct (Rle_dec 1 0); destruct (Rle_dec _ 1); lra.
Qed.

Lemma negative_ds_means :
  np_nanmean [[Num (-0.1); Num 0.5]] = Num 0.2 /\
  np_nanmean [[Num (-0.02); Num 0.1]] = Num 0.04.
Proof. unfold np_nanmean. simpl. split; f_equal; lra. Qed.

(** C10, as stated, fails when the exponent is a whole number.  Band 0 of
    [negative_ds] has mean 0.2, so the exponent is 1: the cell holding
    -0.1 keeps its value under the power and the clip turns it into 0,
    not 1. *)
Lemma negative_cell_counterexample :
  isel_bands 0 (reflectance negative_ds) = Ok [[Num (-0.1); Num 0.5]] /\
  lookup2 [[Num (-0.1); Num 0.5]] 0 0 = Some (Num (-0.1)) /\
  -0.1 < 0 /\
  exists out,
    gamma_adjust negative_ds 0 = Ok out /\
    lookup2 out 0 0 = Some (Num 0) /\
    lookup2 out 0 0 <> Some (Num 1).
Proof.
  destruct negative_ds_means as (Hm & _).
  split; [reflexivity|]. split; [reflexivity|]. split; [lra|].
  exists (gamma_scale [[Num (-0.1); Num 0.5]] (Num (ln 0.2 / ln 0.2))).
  split.
  { apply (gamma_adjust_ok negative_ds 0 _ 0.2 eq_refl Hm); lra. }
  assert (Hcell : lookup2 (gamma_scale [[Num (-0.1); Num 0.5]]
                             (Num (ln 0.2 / ln 0.2))) 0 0 = Some (Num 0)).
  { rewrite lookup2_gamma_scale. unfold lookup2, nth_error, option_map.
    replace (ln 0.2 / ln 0.2) with 1
      by (field; pose proof ln_fifth_neg; lra).
    rewrite power_negative_one by lra.
    unfold np_clip, nan_to_num, Rmin, Rmax. do 2 f_equal.
    destruct (Rle_dec (-0.1) 0); destruct (Rle_dec _ 1); lra. }
  split; [exact Hcell|].
  rewrite Hcell. intros H. inversion H. lra.
Qed.

(** C10 (amended): when the exponent [gamma] is not a whole number, every
    cell with a strictly negative reflectance comes out of [gamma_adjust]
    as exactly 1, the value a missing cell comes out as. *)
Theorem negative_cell_to_one :
  forall (ds : Dataset) (band : nat) (array out : array2) (gamma : R),
    isel_bands band (reflectance ds) = Ok array ->
    gamma_exponent array = Ok (Num gamma) ->
    is_integer gamma = false ->
    gamma_adjust ds band = Ok out ->
    (forall i j x, lookup2 array i j = Some (Num x) -> x < 0 ->
                   lookup2 out i j = Some (Num 1)) /\
    (forall i j, lookup2 array i j = Some NaN ->
                 lookup2 out i j = Some (Num 1)).
Proof.
  intros ds band array out gamma Hsel Hg Hint Hout.
  rewrite (gamma_adjust_unfold ds band array Hsel), Hg in Hout.
  simpl in Hout. inversion Hout as [Hout']. clear Hout Hout'.
  split.
  - intros i j x Hx Hneg. rewrite lookup2_gamma_scale, Hx. unfold option_map.
    rewrite (scaled_negative_cell x gamma Hneg Hint). reflexivity.
  - intros i j Hx. rewrite lookup2_gamma_scale, Hx. unfold option_map.
    rewrite scaled_missing_cell. reflexivity.
Qed.

(** Band 1 of [negative_ds] has mean 0.04, so the exponent is 1/2: the
    cell holding -0.02 comes out as 1. *)
Lemma negative_cell_to_one_witness :
  gamma_exponent [[Num (-0.02); Num 0.1]] = Ok (Num (1 / 2)) /\
  gamma_adjust negative_ds 1
  = Ok (gamma_scale [[Num (-0.02); Num 0.1]] (Num (1 / 2))) /\
  lookup2 (gamma_scale [[Num (-0.02); Num 0.1]] (Num (1 / 2))) 0 0
  = Some (Num 1).
Proof.
  destruct negative_ds_means as (_ & Hm).
  assert (Hhalf : ln 0.2 / ln 0.04 = 1 / 2).
  { rewrite ln_fifth_squared. field. pose proof ln_fifth_neg. lra. }
  assert (Hg : gamma_exponent [[Num (-0.02); Num 0.1]] = Ok (Num (1 / 2))).
  { rewrite <- Hhalf. apply (gamma_exponent_ok _ 0.04 Hm); lra. }
  assert (Hout : gamma_adjust negative_ds 1
                 = Ok (gamma_scale [[Num (-0.02); Num 0.1]] (Num (1 / 2)))).
  { rewrite (gamma_adjust_unfold negative_ds 1 [[Num (-0.02); Num 0.1]] eq_refl).
    rewrite Hg. reflexivity. }
  split; [exact Hg|]. split; [exact Hout|].
  apply (negative_cell_to_one negative_ds 1 _ _ (1 / 2) eq_refl Hg
           is_integer_half Hout) with (x := -0.02); [reflexivity|lra].
Defined.

(* --------------------------------------------------------------------- *)
(** ** The run: effects and exceptions *)
(* --------------------------------------------------------------------- *)

Lemma transparent_ret {A} (fp : string) (a : A) : transparent fp (mret a).
Proof.
  intros w r w' H. unfold mret in H. inversion H; subst.
  split; [reflexivity|]. exists []. rewrite app_nil_r.
  split; [reflexivity|]. split; constructor.
Qed.

Lemma transparent_call {A} (fp op : string) (eff : effect) (r : result A) :
  eff = FsRead fp \/ eff = Display \/ eff = Pure ->
  transparent fp (call op eff r).
Proof.
  intros Heff w r' w' H. unfold call in H. inversion H; subst.
  split; [reflexivity|].
  exists [mkEvent op eff (raised r')]. split; [reflexivity|].
  split; [constructor; [exact Heff|constructor]|].
  destruct r' as [a|e]; simpl.
  - constructor; [reflexivity|constructor].
  - exists [], (mkEvent op eff (Some e)).
    split; [reflexivity|]. split; [constructor|reflexivity].
Qed.

Lemma transparent_call_read {A} (fp op : string)
    (f : option bytes -> result A) :
  transparent fp (call_read op fp f).
Proof.
  intros w r w' H. unfold call_read in H.
  exact (transparent_call fp op (FsRead fp) (f (files w fp))
           (or_introl eq_refl) w r w' H).
Qed.

Lemma transparent_show (fp what : string) : transparent fp (show what).
Proof. apply transparent_call. right. left. reflexivity. Qed.

Lemma transparent_pure {A} (fp op : string) (r : result A) :
  transparent fp (call op Pure r).
Proof. apply transparent_call. right. right. reflexivity. Qed.

Lemma transparent_bind {A B} (fp : string) (m : M A) (f : A -> M B) :
  transparent fp m -> (forall a, transparent fp (f a)) ->
  transparent fp (mbind m f).
Proof.
  intros Hm Hf w r w' H. unfold mbind in H.
  destruct (m w) as [[a|e] w1] eqn:Em.
  - destruct (Hm w (Ok a) w1 Em) as (Hfiles1 & new1 & Htr1 & Hok1 & Hun1).
    destruct (Hf a w1 r w' H) as (Hfiles2 & new2 & Htr2 & Hok2 & Hun2).
    split; [congruence|].
    exists (new1 ++ new2). split; [rewrite Htr2, Htr1, app_assoc; reflexivity|].
    split; [apply Forall_app; split; assumption|].
    simpl in Hun1. destruct r as [b|e]; simpl in *.
    + apply Forall_app; split; assumption.
    + destruct Hun2 as (before & last & Hnew & Hbefore & Hlast).
      exists (new1 ++ before), last. split; [rewrite Hnew, app_assoc; reflexivity|].
      split; [apply Forall_app; split; assumption|exact Hlast].
  - inversion H; subst.
    destruct (Hm w (Raise e) w' Em) as (Hfiles & new & Htr & Hok & Hun).
    split; [exact Hfiles|]. exists new. split; [exact Htr|].
    split; [exact Hok|exact Hun].
Qed.

(** Walk a cell call by call. *)
Ltac transparency :=
  repeat first
    [ apply transparent_bind; [|intros ?]
    | apply transparent_call_read
    | apply transparent_show
    | apply transparent_pure
    | apply transparent_ret
    | progress cbv zeta
    | match goal with
      | |- transparent _ (let '(_, _) := ?p in _) => destruct p
      end ].

Lemma transparent_point_spectra (L : Library) (fp : string)
    (ds_geo : Dataset) (x y : R) :
  transparent fp (point_spectra L ds_geo x y).
Proof. unfold point_spectra. transparency. Qed.

Lemma transparent_click_spectra (L : Library) (fp : string)
    (ds_geo : Dataset) (x y : R) :
  transparent fp (click_spectra L ds_geo x y).
Proof. unfold click_spectra. transparency. Qed.

Lemma transparent_cell_42 (L : Library) (fp : string) (ds_geo : Dataset)
    (bands : nat * nat * nat) :
  transparent fp (cell_42 L ds_geo bands).
Proof. unfold cell_42. destruct bands as [[r g] b]. transparency. Qed.

Lemma transparent_cell_46 (L : Library) (fp : string) (ds_geo : Dataset)
    (map : plot L) :
  transparent fp (cell_46 L ds_geo map).
Proof.
  unfold cell_46. transparency.
Qed.

Lemma transparent_run (L : Library) (fp : string) : transparent fp (run L fp).
Proof.
  unfold run, cell_07, cell_11, cell_13, cell_15, cell_17, cell_19, cell_23,
    cell_26, cell_28, cell_30, gltxr_apply_gltx, cell_32, cell_34, cell_36,
    cell_38, cell_44.
  transparency. apply transparent_cell_42.
Qed.

Lemma transparent_propagates {A} (fp : string) (m : M A) (w : World) :
  transparent fp m -> propagates m w.
Proof.
  intros Hm. unfold propagates. destruct (m w) as [r w'] eqn:Em.
  destruct (Hm w r w' Em) as (_ & new & Htr & _ & Hun).
  exists new. split; assumption.
Qed.


(** Nothing is logged but what a call logs, so an exception at the end of
    a run is the one its last call raised. *)
Lemma call_raises {A} (op : string) (eff : effect) (r : result A) (w : World)
    (e : exn) :
  r = Raise e -> fst (call op eff r w) = Raise e.
Proof. intros ->. reflexivity. Qed.

Lemma mbind_raises {A B} (m : M A) (f : A -> M B) (w : World) (e : exn) :
  fst (m w) = Raise e -> fst (mbind m f w) = Raise e.
Proof.
  unfold mbind. destruct (m w) as [[a|e'] w1]; simpl; intros H;
    [discriminate|inversion H; reflexivity].
Qed.

(** C6: in a run of the notebook, and in the two stream callbacks,
    nothing catches: every call before the last one returned, and the run
    ends with an exception exactly when its last call raised it, with
    that very exception.  So the error of [apply_gltx] is the outcome of
    cell 30, the error of the first reader is the outcome of the run, and
    an exception of [gamma_adjust] is the outcome of cell 42. *)
Theorem errors_propagate :
  forall (L : Library) (fp : string) (w : World),
    propagates (run L fp) w /\
    (forall ds_geo x y, propagates (point_spectra L ds_geo x y) w) /\
    (forall ds_geo x y, propagates (click_spectra L ds_geo x y) w) /\
    (forall e, apply_gltx L (files w fp) = Raise e ->
               fst (cell_30 L fp w) = Raise e) /\
    (forall e, nc_Dataset L (files w fp) = Raise e ->
               fst (run L fp w) = Raise e) /\
    (forall ds_geo b650 b560 b470 e,
       gamma_adjust ds_geo b650 = Raise e ->
       fst (cell_42 L ds_geo (b650, b560, b470) w) = Raise e).
Proof.
  intros L fp w.
  split; [apply (transparent_propagates fp), transparent_run|].
  split; [intros; apply (transparent_propagates fp), transparent_point_spectra|].
  split; [intros; apply (transparent_propagates fp), transparent_click_spectra|].
  split; [|split].
  - intros e He. unfold cell_30. apply mbind_raises.
    unfold gltxr_apply_gltx, call_read. apply call_raises. exact He.
  - intros e He. unfold run. apply mbind_raises.
    unfold cell_07. apply mbind_raises.
    unfold call_read. apply call_raises. exact He.
  - intros ds_geo r g b e He. unfold cell_42. apply mbind_raises.
    apply call_raises. exact He.
Qed.

(** A file no reader accepts: the run stops at [nc.Dataset] with the
    reader's exception. *)
Lemma errors_propagate_witness :
  nc_Dataset (failing_library (LibraryError "NetCDF: Unknown file format"))
    (files empty_world "../data/EMIT_L2A_RFL_001_20220903T163129_2224611_012.nc")
  = Raise (LibraryError "NetCDF: Unknown file format") /\
  fst (run (failing_library (LibraryError "NetCDF: Unknown file format"))
         "../data/EMIT_L2A_RFL_001_20220903T163129_2224611_012.nc" empty_world)
  = Raise (LibraryError "NetCDF: Unknown file format").
Proof.
  split; [reflexivity|].
  destruct (errors_propagate
              (failing_library (LibraryError "NetCDF: Unknown file format"))
              "../data/EMIT_L2A_RFL_001_20220903T163129_2224611_012.nc"
              empty_world) as (_ & _ & _ & _ & Hfirst & _).
  apply Hfirst. reflexivity.
Defined.


(** The run on a file no reader accepts: one event, the read of the
    input file. *)
Example run_failing_trace :
  run (failing_library (LibraryError "NetCDF: Unknown file format"))
    "input.nc" empty_world
  = (Raise (LibraryError "NetCDF: Unknown file format"),
     {| files := files empty_world;
        trace := [mkEvent "nc.Dataset" (FsRead "input.nc")
                    (Some (LibraryError "NetCDF: Unknown file format"))] |}).
Proof. reflexivity. Qed.

(* ===================================================================== *)
(** * Further properties of the cells *)
(* ===================================================================== *)

(* --------------------------------------------------------------------- *)
(** ** The nearest band as a band index *)
(* --------------------------------------------------------------------- *)

Lemma traverse_ok {A B} (f : A -> result B) (l : list A) :
  Forall (fun x => exists y, f x = Ok y) l -> exists l', traverse f l = Ok l'.
Proof.
  induction 1 as [|x l (y & Hy) _ (l' & Hl')]; simpl.
  - exists []. reflexivity.
  - exists (y :: l'). rewrite Hy, Hl'. reflexivity.
Qed.

Lemma isel_bands_in_range (rows cols nbands band : nat) (a : array3) :
  cube rows cols nbands a -> (band < nbands)%nat ->
  exists plane, isel_bands band a = Ok plane /\ rect2 rows cols plane.
Proof.
  intros (Hrect & Hspec) Hband.
  assert (Hok : exists plane, isel_bands band a = Ok plane).
  { unfold isel_bands. apply traverse_ok.
    eapply Forall_impl; [|exact Hspec]. intros row Hrow.
    apply traverse_ok. eapply Forall_impl; [|exact Hrow].
    intros spectrum Hlen. simpl in Hlen.
    destruct (nth_error spectrum band) as [v|] eqn:E; [exists v; reflexivity|].
    apply nth_error_None in E. lia. }
  destruct Hok as (plane & Hplane). exists plane.
  split; [exact Hplane|]. eapply isel_bands_shape; eauto.
Qed.

Lemma first_nearest_in_range (wl : array1) (t : R) (i : nat) :
  first_nearest wl t i -> (i < length wl)%nat.
Proof.
  intros (w & Hw & _). apply nth_error_Some. rewrite Hw. discriminate.
Qed.

Lemma nearest_band_first (wl : array1) (t : R) (i : nat) :
  nearest_band wl t = Ok i -> first_nearest wl t i.
Proof.
  intros Hi. destruct (nearest_band_spec wl t) as (Hn1 & Hn2).
  destruct (has_wavelength_dec wl) as [Hv|Hv].
  - destruct (Hn1 Hv) as (i' & Hi' & Hf). congruence.
  - rewrite (Hn2 Hv) in Hi. discriminate.
Qed.

Lemma sample_b650 : b650 sample_ds = Ok 2%nat.
Proof.
  unfold b650, nearest_band, np_nanargmin. rewrite replace_nan_dist. simpl.
  replace (Rabs (470 - 650)) with 180 by (rewrite Rabs_left; lra).
  replace (Rabs (560 - 650)) with 90 by (rewrite Rabs_left; lra).
  replace (Rabs (650 - 650)) with 0 by (rewrite Rabs_right; lra).
  unfold Rmin. rdecide. simpl. rdecide. reflexivity.
Qed.

Lemma sample_ds_cube : cube 1 2 (length (wavelengths sample_ds)) (reflectance sample_ds).
Proof.
  split; [split; [reflexivity|repeat constructor]|repeat constructor].
Qed.

(** X1: on a dataset whose spectra are as long as its wavelength axis,
    the band the lookup returns is a valid band index: selecting it with
    [isel(bands=...)] does not raise and gives a plane with the rows and
    columns of the cube (cells 26 and 32). *)
Theorem nearest_band_selects (ds : Dataset) (rows cols : nat) (target : R)
    (i : nat) :
  cube rows cols (length (wavelengths ds)) (reflectance ds) ->
  nearest_band (wavelengths ds) target = Ok i ->
  (i < length (wavelengths ds))%nat /\
  exists plane, isel_bands i (reflectance ds) = Ok plane /\
                rect2 rows cols plane.
Proof.
  intros Hcube Hi.
  pose proof (first_nearest_in_range _ _ _ (nearest_band_first _ _ _ Hi)) as Hlt.
  split; [exact Hlt|]. eapply isel_bands_in_range; eauto.
Qed.

Lemma nearest_band_selects_witness :
  (2 < length (wavelengths sample_ds))%nat /\
  exists plane, isel_bands 2 (reflectance sample_ds) = Ok plane /\
                rect2 1 2 plane.
Proof.
  exact (nearest_band_selects sample_ds 1 2 650 2 sample_ds_cube sample_b650).
Defined.

(** X2: the lookup raises exactly when no band has a wavelength (an empty
    or all-missing axis), and then it is a [ValueError]. *)
Theorem nearest_band_raises (wl : array1) (target : R) (e : exn) :
  nearest_band wl target = Raise e <->
  e = ValueError /\ forall w, ~ In (Num w) wl.
Proof.
  destruct (nearest_band_spec wl target) as (Hn1 & Hn2). split.
  - intros He. destruct (has_wavelength_dec wl) as [Hv|Hv].
    + destruct (Hn1 Hv) as (i & Hi & _). congruence.
    + rewrite (Hn2 Hv) in He. split; [congruence|].
      intros w Hw. apply Hv. exists w. exact Hw.
  - intros (-> & Hnone). apply Hn2. intros (w & Hw). exact (Hnone w Hw).
Qed.

(** X3: when a band sits exactly on the target wavelength, the lookup
    returns the first such band. *)
Theorem nearest_band_exact (wl : array1) (target : R) :
  In (Num target) wl ->
  exists i, nearest_band wl target = Ok i /\
            nth_error wl i = Some (Num target) /\
            forall j, (j < i)%nat -> nth_error wl j <> Some (Num target).
Proof.
  intros Hin. destruct (nearest_band_spec wl target) as (Hn1 & _).
  destruct (Hn1 (ex_intro _ target Hin)) as (i & Hi & w & Hw & Hall).
  exists i. split; [exact Hi|].
  destruct (In_nth_error _ _ Hin) as (k & Hk).
  destruct (Hall k target Hk) as (Hle & _).
  assert (Hzero : Rabs (target - target) = 0)
    by (replace (target - target) with 0 by lra; apply Rabs_R0).
  assert (Hw0 : w = target).
  { rewrite Hzero in Hle. pose proof (Rabs_pos (w - target)) as Hpos.
    assert (Habs : Rabs (w - target) = 0) by lra.
    destruct (Req_dec_T (w - target) 0) as [E|E]; [lra|].
    apply Rabs_no_R0 in E. contradiction. }
  subst w. split; [exact Hw|].
  intros j Hj Hnj. destruct (Hall j target Hnj) as (_ & Hlt).
  specialize (Hlt Hj). lra.
Qed.

Lemma nearest_band_exact_witness :
  exists i, nearest_band (wavelengths sample_ds) 560 = Ok i /\
            nth_error (wavelengths sample_ds) i = Some (Num 560) /\
            forall j, (j < i)%nat ->
                      nth_error (wavelengths sample_ds) j <> Some (Num 560).
Proof.
  apply (nearest_band_exact (wavelengths sample_ds) 560).
  right. left. reflexivity.
Defined.

(* --------------------------------------------------------------------- *)
(** ** The mask and the selections *)
(* --------------------------------------------------------------------- *)

Lemma mask_val_not_sentinel (v : val) : is_sentinel (mask_val v) = false.
Proof.
  rewrite mask_val_cases. destruct (is_sentinel v) eqn:E; [reflexivity|exact E].
Qed.

Lemma count1_none (p : val -> bool) (l : array1) :
  (forall v, In v l -> p v = false) -> count1 p l = 0%nat.
Proof.
  unfold count1. induction l as [|v l IH]; intros H; simpl; [reflexivity|].
  rewrite (H v (or_introl eq_refl)). apply IH. intros u Hu. apply H. right. exact Hu.
Qed.

Lemma count3_mask_sentinel (a : array3) :
  count3 is_sentinel (mask_sentinel a) = 0%nat.
Proof.
  rewrite mask_sentinel_cells. unfold count3, count2.
  induction a as [|row a IH]; simpl; [reflexivity|]. rewrite IH, Nat.add_0_r.
  clear IH. induction row as [|sp row IH]; simpl; [reflexivity|].
  rewrite IH, Nat.add_0_r. apply count1_none.
  intros v Hv. apply in_map_iff in Hv. destruct Hv as (u & <- & _).
  apply mask_val_not_sentinel.
Qed.

Lemma mask_sentinel_lengths (a : array3) :
  map row_lengths (mask_sentinel a) = map row_lengths a.
Proof.
  rewrite mask_sentinel_cells, map_map. apply map_ext. intros row.
  unfold row_lengths. rewrite map_map. apply map_ext. intros sp.
  apply length_map.
Qed.

(** X4: after [where(reflectance != -0.01)] no cell of the cube equals
    the sentinel any more, and the cube has the rows, columns and band
    count it had. *)
Theorem mask_removes_sentinel (a : array3) :
  count3 is_sentinel (mask_sentinel a) = 0%nat /\
  length (mask_sentinel a) = length a /\
  map row_lengths (mask_sentinel a) = map row_lengths a.
Proof.
  split; [apply count3_mask_sentinel|].
  split; [|apply mask_sentinel_lengths].
  rewrite mask_sentinel_cells. apply length_map.
Qed.

Lemma lookup2_map {A B} (f : A -> B) (a : list (list A)) (i j : nat) :
  lookup2 (map (map f) a) i j = option_map f (lookup2 a i j).
Proof.
  unfold lookup2. rewrite nth_error_map.
  destruct (nth_error a i) as [row|]; simpl; [|reflexivity].
  apply nth_error_map.
Qed.

(** X5: the spectrum of a pixel taken from the masked cube (cell 23) is
    the spectrum of that pixel in the original cube (cell 17) with its
    sentinel cells missing; the selection raises on the one exactly when
    it raises on the other. *)
Theorem isel_pixel_mask (a : array3) (i j : nat) :
  isel_pixel i j (mask_sentinel a) = rmap (map mask_val) (isel_pixel i j a).
Proof.
  rewrite mask_sentinel_cells. unfold isel_pixel.
  rewrite lookup2_map. unfold array3, array2, array1 in *.
  destruct (lookup2 a i j); reflexivity.
Qed.

Lemma isel_pixel_bounds (rows cols i j : nat) (a : array3) :
  rect2 rows cols a ->
  ((i < rows)%nat -> (j < cols)%nat -> exists sp, isel_pixel i j a = Ok sp) /\
  ((rows <= i)%nat \/ (cols <= j)%nat -> isel_pixel i j a = Raise IndexError).
Proof.
  intros (Hlen & Hrows). unfold isel_pixel, lookup2.
  unfold array3, array2, array1 in *. split.
  - intros Hi Hj.
    destruct (nth_error a i) as [row|] eqn:Ei.
    + assert (Hrow : length row = cols).
      { rewrite Forall_forall in Hrows. apply Hrows.
        eapply nth_error_In. exact Ei. }
      destruct (nth_error row j) as [sp|] eqn:Ej; [exists sp; reflexivity|].
      apply nth_error_None in Ej. lia.
    + apply nth_error_None in Ei. lia.
  - intros Hout.
    destruct (nth_error a i) as [row|] eqn:Ei; [|reflexivity].
    assert (Hrow : length row = cols).
    { rewrite Forall_forall in Hrows. apply Hrows.
      eapply nth_error_In. exact Ei. }
    assert (Hi : (i < rows)%nat).
    { rewrite <- Hlen. apply nth_error_Some. rewrite Ei. discriminate. }
    destruct Hout as [Hout|Hout]; [lia|].
    assert (Ej : nth_error row j = None) by (apply nth_error_None; lia).
    rewrite Ej. reflexivity.
Qed.

(** X6: on a cube of [rows] by [cols] pixels, [isel(downtrack=i,
    crosstrack=j)] returns the spectrum when [i < rows] and [j < cols],
    and raises [IndexError] when either index is past the end; the pixel
    (660, 370) of cells 17 and 23 needs a scene of at least 661 by 371
    pixels. *)
Theorem isel_pixel_in_scene (rows cols i j : nat) (a : array3) :
  rect2 rows cols a ->
  ((i < rows)%nat /\ (j < cols)%nat <-> exists sp, isel_pixel i j a = Ok sp) /\
  ((rows <= i)%nat \/ (cols <= j)%nat <-> isel_pixel i j a = Raise IndexError) /\
  ((exists sp, isel_pixel 660 370 a = Ok sp) ->
   (661 <= rows)%nat /\ (371 <= cols)%nat).
Proof.
  intros Hrect.
  destruct (isel_pixel_bounds rows cols i j a Hrect) as (Hin & Hout).
  assert (Hiff : (i < rows)%nat /\ (j < cols)%nat <->
                 exists sp, isel_pixel i j a = Ok sp).
  { split.
    - intros (Hi & Hj). exact (Hin Hi Hj).
    - intros (sp & Hsp).
      destruct (Nat.lt_ge_cases i rows) as [Hi|Hi];
        [destruct (Nat.lt_ge_cases j cols) as [Hj|Hj]; [split; assumption|]|].
      + rewrite (Hout (or_intror Hj)) in Hsp. discriminate.
      + rewrite (Hout (or_introl Hi)) in Hsp. discriminate. }
  split; [exact Hiff|]. split.
  - split; [exact Hout|]. intros Hraise.
    destruct (Nat.lt_ge_cases i rows) as [Hi|Hi]; [|left; exact Hi].
    destruct (Nat.lt_ge_cases j cols) as [Hj|Hj]; [|right; exact Hj].
    destruct (Hin Hi Hj) as (sp & Hsp). congruence.
  - intros (sp & Hsp).
    destruct (isel_pixel_bounds rows cols 660 370 a Hrect) as (_ & Hout').
    destruct (Nat.lt_ge_cases 660 rows) as [Hi|Hi];
      [destruct (Nat.lt_ge_cases 370 cols) as [Hj|Hj]; [lia|]|].
    + rewrite (Hout' (or_intror Hj)) in Hsp. discriminate.
    + rewrite (Hout' (or_introl Hi)) in Hsp. discriminate.
Qed.

Lemma isel_pixel_in_scene_witness :
  (exists sp, isel_pixel 0 1 (reflectance sample_ds) = Ok sp) /\
  isel_pixel 660 370 (reflectance sample_ds) = Raise IndexError.
Proof.
  destruct (isel_pixel_in_scene 1 2 0 1 (reflectance sample_ds)
              (proj1 sample_ds_cube)) as (Hin & _).
  destruct (isel_pixel_in_scene 1 2 660 370 (reflectance sample_ds)
              (proj1 sample_ds_cube)) as (_ & Hout & _).
  split; [apply Hin; split; lia|apply Hout; left; lia].
Defined.

Lemma isel_bands_past_end (rows cols nbands band : nat) (a : array3) :
  cube rows cols nbands a -> (0 < rows)%nat -> (0 < cols)%nat ->
  (nbands <= band)%nat -> isel_bands band a = Raise IndexError.
Proof.
  intros ((Hlen & Hrows) & Hspec) Hr Hc Hband.
  destruct a as [|row a]; [simpl in Hlen; lia|].
  apply Forall_inv in Hrows. apply Forall_inv in Hspec.
  destruct row as [|sp row]; [simpl in Hrows; lia|].
  apply Forall_inv in Hspec. simpl in Hspec.
  assert (E : nth_error sp band = None) by (apply nth_error_None; lia).
  unfold isel_bands. simpl. rewrite E. reflexivity.
Qed.

(** X7: on a cube with at least one pixel and [nbands] bands, a band index
    at or past [nbands] makes [isel(bands=...)] raise [IndexError], and
    [gamma_adjust] ends with that [IndexError] before any scaling. *)
Theorem gamma_adjust_band_past_end (ds : Dataset) (rows cols nbands band : nat) :
  cube rows cols nbands (reflectance ds) ->
  (0 < rows)%nat -> (0 < cols)%nat -> (nbands <= band)%nat ->
  isel_bands band (reflectance ds) = Raise IndexError /\
  gamma_adjust ds band = Raise IndexError.
Proof.
  intros Hcube Hr Hc Hband.
  pose proof (isel_bands_past_end rows cols nbands band _ Hcube Hr Hc Hband) as E.
  split; [exact E|]. unfold gamma_adjust. rewrite E. reflexivity.
Qed.

Lemma gamma_adjust_band_past_end_witness :
  isel_bands 3 (reflectance sample_ds) = Raise IndexError /\
  gamma_adjust sample_ds 3 = Raise IndexError.
Proof.
  apply (gamma_adjust_band_past_end sample_ds 1 2 3 3 sample_ds_cube); lia.
Defined.

(* --------------------------------------------------------------------- *)
(** ** The scaled plane: shape, stacking, missing cells *)
(* --------------------------------------------------------------------- *)

(** X8: the array [gamma_adjust] returns has a cell exactly where the
    selected band has one, and on a cube of [rows] by [cols] pixels it is
    [rows] by [cols]. *)
Theorem gamma_adjust_keeps_shape (ds : Dataset) (band : nat)
    (array out : array2) :
  isel_bands band (reflectance ds) = Ok array ->
  gamma_adjust ds band = Ok out ->
  row_lengths out = row_lengths array /\
  (forall i j, lookup2 out i j = None <-> lookup2 array i j = None) /\
  (forall rows cols, rect2 rows cols (reflectance ds) -> rect2 rows cols out).
Proof.
  intros Hsel Hout.
  destruct (gamma_adjust_returns ds band out Hout) as (array' & gamma & Hsel' & _ & Heq).
  assert (array' = array) by congruence. subst array'.
  split; [|split].
  - subst out. unfold gamma_scale, row_lengths. rewrite !map_map.
    apply map_ext. intros row. rewrite !length_map. reflexivity.
  - intros i j. subst out. rewrite lookup2_gamma_scale.
    destruct (lookup2 array i j); simpl; split; intros H;
      try discriminate; reflexivity.
  - intros rows cols Hrect. eapply gamma_adjust_shape; eauto.
Qed.

Lemma gamma_adjust_keeps_shape_witness :
  rect2 1 3 (gamma_scale [[Num 0.3; Num 0.5; Num 0.7]] (Num (ln 0.2 / ln 0.5))).
Proof.
  assert (Hout : gamma_adjust mean_ds 0
                 = Ok (gamma_scale [[Num 0.3; Num 0.5; Num 0.7]]
                         (Num (ln 0.2 / ln 0.5)))).
  { apply (gamma_adjust_ok mean_ds 0 _ 0.5 eq_refl mean_ds_mean); lra. }
  apply (gamma_adjust_keeps_shape mean_ds 0 _ _ eq_refl Hout).
  split; [reflexivity|repeat constructor].
Defined.

(** X9: on a cube of [rows] by [cols] pixels the stacking of cell 42
    adds no failure of its own: when the three calls of [gamma_adjust]
    return, [np.stack] returns their planes as a (3, rows, cols) array,
    and when the cell raises, the exception is one [gamma_adjust]
    raised. *)
Theorem rgb_stack_on_cube (ds : Dataset) (rows cols br bg bb : nat) :
  rect2 rows cols (reflectance ds) ->
  (forall r g b,
     gamma_adjust ds br = Ok r -> gamma_adjust ds bg = Ok g ->
     gamma_adjust ds bb = Ok b ->
     rgb_stack ds br bg bb = Ok [r; g; b] /\ rect3 3 rows cols [r; g; b]) /\
  (forall e, rgb_stack ds br bg bb = Raise e ->
     gamma_adjust ds br = Raise e \/ gamma_adjust ds bg = Raise e \/
     gamma_adjust ds bb = Raise e).
Proof.
  intros Hrect.
  assert (Hok : forall r g b,
             gamma_adjust ds br = Ok r -> gamma_adjust ds bg = Ok g ->
             gamma_adjust ds bb = Ok b ->
             rgb_stack ds br bg bb = Ok [r; g; b] /\ rect3 3 rows cols [r; g; b]).
  { intros r g b Hr Hg Hb.
    pose proof (gamma_adjust_shape ds br rows cols r Hrect Hr) as Rr.
    pose proof (gamma_adjust_shape ds bg rows cols g Hrect Hg) as Rg.
    pose proof (gamma_adjust_shape ds bb rows cols b Hrect Hb) as Rb.
    split.
    - unfold rgb_stack. rewrite Hr, Hg, Hb. simpl rbind.
      exact (np_stack_three rows cols r g b Rr Rg Rb).
    - split; [reflexivity|].
      apply Forall_cons; [exact Rr|].
      apply Forall_cons; [exact Rg|].
      apply Forall_cons; [exact Rb|apply Forall_nil]. }
  split; [exact Hok|].
  intros e He. pose proof He as He'. unfold rgb_stack in He'.
  destruct (gamma_adjust ds br) as [r|er];
    [|left; simpl in He'; inversion He'; reflexivity].
  destruct (gamma_adjust ds bg) as [g|eg];
    [|right; left; simpl in He'; inversion He'; reflexivity].
  destruct (gamma_adjust ds bb) as [b|eb];
    [|right; right; simpl in He'; inversion He'; reflexivity].
  destruct (Hok r g b eq_refl eq_refl eq_refl) as (Hs & _). congruence.
Qed.

Lemma rgb_stack_on_cube_witness :
  rgb_stack sample_ds 2 1 0
  = Ok [gamma_scale [[Num 0.02; Num 0.06]] (Num (ln 0.2 / ln 0.04));
        gamma_scale [[Num 0.1; Num 0.3]] (Num (ln 0.2 / ln 0.2));
        gamma_scale [[Num 0.3; Num 0.7]] (Num (ln 0.2 / ln 0.5))].
Proof.
  destruct sample_band_means as (Hb & Hg & Hr).
  destruct (rgb_stack_on_cube sample_ds 1 2 2 1 0 (proj1 sample_ds_cube))
    as (Hok & _).
  apply Hok.
  - apply (gamma_adjust_ok sample_ds 2 _ 0.04 eq_refl Hr); lra.
  - apply (gamma_adjust_ok sample_ds 1 _ 0.2 eq_refl Hg); lra.
  - apply (gamma_adjust_ok sample_ds 0 _ 0.5 eq_refl Hb); lra.
Defined.

Lemma gappy_band0_mean :
  np_nanmean (mask_plane [[Num 0.3; NaN; Num (-0.01); Num 0.7]]) = Num 0.5.
Proof.
  unfold mask_plane, mask_val, where_val, val_ne, sentinel. simpl.
  rdecide. unfold np_nanmean. simpl. f_equal. lra.
Qed.

(** X10: whenever [gamma_adjust] returns, every missing cell of the band
    comes out as exactly 1, white in the plot, whatever the exponent. *)
Theorem gamma_adjust_missing_white (ds : Dataset) (band : nat)
    (array out : array2) (i j : nat) :
  isel_bands band (reflectance ds) = Ok array ->
  gamma_adjust ds band = Ok out ->
  lookup2 array i j = Some NaN ->
  lookup2 out i j = Some (Num 1).
Proof.
  intros Hsel Hout Hij.
  destruct (gamma_adjust_returns ds band out Hout) as (array' & gamma & Hsel' & _ & ->).
  assert (array' = array) by congruence. subst array'.
  rewrite lookup2_gamma_scale, Hij. unfold option_map.
  rewrite scaled_missing_cell. reflexivity.
Qed.

Lemma gappy_band0_raw_mean :
  np_nanmean [[Num 0.3; NaN; Num (-0.01); Num 0.7]] = Num 0.33.
Proof. unfold np_nanmean. simpl. f_equal. lra. Qed.

Lemma gamma_adjust_missing_white_witness :
  lookup2 (gamma_scale [[Num 0.3; NaN; Num (-0.01); Num 0.7]]
             (Num (ln 0.2 / ln 0.33))) 0 1 = Some (Num 1).
Proof.
  assert (Hout : gamma_adjust gappy_ds 0
                 = Ok (gamma_scale [[Num 0.3; NaN; Num (-0.01); Num 0.7]]
                         (Num (ln 0.2 / ln 0.33)))).
  { apply (gamma_adjust_ok gappy_ds 0 _ 0.33 eq_refl gappy_band0_raw_mean); lra. }
  exact (gamma_adjust_missing_white gappy_ds 0 _ _ 0 1 eq_refl Hout eq_refl).
Defined.

(* --------------------------------------------------------------------- *)
(** ** The mask before the scaling *)
(* --------------------------------------------------------------------- *)

Lemma isel_bands_masked_geo (ds : Dataset) (band : nat) (plane : array2) :
  isel_bands band (reflectance ds) = Ok plane ->
  isel_bands band (reflectance (mask_ds_geo ds)) = Ok (mask_plane plane).
Proof.
  intros Hsel.
  change (reflectance (mask_ds_geo ds)) with (mask_sentinel (reflectance ds)).
  rewrite isel_bands_mask, Hsel. reflexivity.
Qed.

Lemma valid_values_mask (plane : array2) :
  valid_values (mask_plane plane) = filter not_sentinel (valid_values plane).
Proof.
  unfold valid_values, mask_plane.
  induction plane as [|row plane IH]; simpl; [reflexivity|].
  rewrite filter_app, IH. f_equal. clear IH.
  induction row as [|v row IH]; simpl; [reflexivity|].
  rewrite filter_app, IH. f_equal.
  destruct v as [|x]; simpl; [reflexivity|].
  unfold mask_val, where_val, val_ne, not_sentinel.
  destruct (Req_dec_T x sentinel); reflexivity.
Qed.

(** X11: after the mask of cell 34 a cell that held the sentinel comes
    out of [gamma_adjust] as 1, like any missing cell, and the mean that
    sets the exponent is taken over the cells that are neither missing
    nor the sentinel. *)
Theorem masked_sentinel_white (ds : Dataset) (band : nat)
    (plane out : array2) (i j : nat) :
  isel_bands band (reflectance ds) = Ok plane ->
  gamma_adjust (mask_ds_geo ds) band = Ok out ->
  lookup2 plane i j = Some (Num sentinel) ->
  lookup2 out i j = Some (Num 1) /\
  (exists gamma, gamma_exponent (mask_plane plane) = Ok gamma /\
                 out = gamma_scale (mask_plane plane) gamma) /\
  valid_values (mask_plane plane) = filter not_sentinel (valid_values plane).
Proof.
  intros Hsel Hout Hij.
  pose proof (isel_bands_masked_geo ds band plane Hsel) as Hsel'.
  destruct (gamma_adjust_returns _ band out Hout) as (array & gamma & Ha & Hg & ->).
  assert (array = mask_plane plane) by congruence. subst array.
  split; [|split; [exists gamma; split; [exact Hg|reflexivity]|apply valid_values_mask]].
  rewrite lookup2_gamma_scale. unfold mask_plane. rewrite lookup2_map, Hij.
  unfold option_map.
  assert (Hm : mask_val (Num sentinel) = NaN).
  { unfold mask_val, where_val, val_ne.
    destruct (Req_dec_T sentinel sentinel); [reflexivity|contradiction]. }
  rewrite Hm, scaled_missing_cell. reflexivity.
Qed.

Lemma masked_sentinel_white_witness :
  lookup2 (gamma_scale (mask_plane [[Num 0.3; NaN; Num (-0.01); Num 0.7]])
             (Num (ln 0.2 / ln 0.5))) 0 2 = Some (Num 1).
Proof.
  assert (Hsel : isel_bands 0 (reflectance gappy_ds)
                 = Ok [[Num 0.3; NaN; Num (-0.01); Num 0.7]]) by reflexivity.
  assert (Hout : gamma_adjust (mask_ds_geo gappy_ds) 0
                 = Ok (gamma_scale
                         (mask_plane [[Num 0.3; NaN; Num (-0.01); Num 0.7]])
                         (Num (ln 0.2 / ln 0.5)))).
  { apply (gamma_adjust_ok _ 0 _ 0.5
             (isel_bands_masked_geo gappy_ds 0 _ Hsel) gappy_band0_mean); lra. }
  apply (masked_sentinel_white gappy_ds 0 _ _ 0 2 Hsel Hout).
  reflexivity.
Defined.

Lemma Rsum_nonpositive (vs : list R) :
  Forall (fun x => x <= 0) vs -> Rsum vs <= 0.
Proof.
  induction 1 as [|x vs Hx _ IH]; simpl; lra.
Qed.

Lemma mean_nonpositive (vs : list R) :
  Forall (fun x => x <= 0) vs -> vs <> [] -> Rsum vs / INR (length vs) <= 0.
Proof.
  intros Hall Hne. pose proof (Rsum_nonpositive vs Hall) as Hs.
  assert (Hn : 0 < INR (length vs)).
  { apply lt_0_INR. destruct vs; [contradiction|simpl; lia]. }
  unfold Rdiv. pose proof (Rinv_0_lt_compat _ Hn) as Hinv.
  nra.
Qed.

Lemma valid_values_all (c : R) (plane : array2) :
  Forall (Forall (fun v => v = Num c)) plane ->
  Forall (fun x => x = c) (valid_values plane).
Proof.
  unfold valid_values. induction 1 as [|row plane Hrow _ IH]; simpl; [constructor|].
  apply Forall_app. split; [|exact IH].
  clear IH. induction Hrow as [|v row Hv _ IH]; simpl; [constructor|].
  subst v. simpl. constructor; [reflexivity|exact IH].
Qed.

Lemma mask_plane_all_sentinel (plane : array2) :
  Forall (Forall (fun v => v = Num sentinel)) plane ->
  mask_plane plane = map (map (fun _ => NaN)) plane.
Proof.
  unfold mask_plane. induction 1 as [|row plane Hrow _ IH]; simpl; [reflexivity|].
  rewrite IH. f_equal. clear IH.
  induction Hrow as [|v row Hv _ IH]; simpl; [reflexivity|].
  rewrite IH. f_equal. subst v. unfold mask_val, where_val, val_ne.
  destruct (Req_dec_T sentinel sentinel); [reflexivity|contradiction].
Qed.

Lemma valid_values_all_missing (plane : array2) :
  valid_values (map (map (fun _ => NaN)) plane) = [].
Proof.
  unfold valid_values. induction plane as [|row plane IH]; simpl; [reflexivity|].
  rewrite IH, app_nil_r. clear IH.
  induction row as [|v row IH]; simpl; [reflexivity|exact IH].
Qed.

(** X12: a water-absorption band, the sentinel in every cell, makes
    [gamma_adjust] raise [ValueError] on the unmasked dataset (its mean
    is negative), and come out all white, 1 in every cell, once the mask
    of cell 34 has been applied. *)
Theorem water_band_needs_mask (ds : Dataset) (band : nat) (plane : array2) :
  isel_bands band (reflectance ds) = Ok plane ->
  Forall (Forall (fun v => v = Num sentinel)) plane ->
  valid_values plane <> [] ->
  gamma_adjust ds band = Raise ValueError /\
  gamma_adjust (mask_ds_geo ds) band = Ok (map (map (fun _ => Num 1)) plane).
Proof.
  intros Hsel Hall Hne. split.
  - rewrite (gamma_adjust_unfold ds band plane Hsel).
    assert (Hmean : exists m, np_nanmean plane = Num m /\ m <= 0).
    { unfold np_nanmean. destruct (valid_values plane) as [|x vs] eqn:E;
        [contradiction|].
      eexists. split; [reflexivity|]. apply mean_nonpositive; [|discriminate].
      rewrite <- E. eapply Forall_impl; [|exact (valid_values_all sentinel plane Hall)].
      intros y ->. unfold sentinel. lra. }
    destruct Hmean as (m & Hm & Hle).
    rewrite (gamma_exponent_nonpositive plane m Hm Hle). reflexivity.
  - pose proof (isel_bands_masked_geo ds band plane Hsel) as Hsel'.
    rewrite (gamma_adjust_all_missing _ band _ Hsel').
    + rewrite (mask_plane_all_sentinel plane Hall).
      unfold gamma_scale. rewrite !map_map. f_equal.
      apply map_ext. intros row. rewrite !map_map. reflexivity.
    + rewrite (mask_plane_all_sentinel plane Hall).
      unfold np_nanmean. rewrite valid_values_all_missing. reflexivity.
Qed.

Lemma water_band_needs_mask_witness :
  gamma_adjust gappy_ds 1 = Raise ValueError /\
  gamma_adjust (mask_ds_geo gappy_ds) 1 = Ok [[Num 1; Num 1; Num 1; Num 1]].
Proof.
  apply (water_band_needs_mask gappy_ds 1
           [[Num (-0.01); Num (-0.01); Num (-0.01); Num (-0.01)]] eq_refl).
  - repeat constructor.
  - discriminate.
Defined.

(* --------------------------------------------------------------------- *)
(** ** The scaled values of non-negative cells *)
(* --------------------------------------------------------------------- *)

Lemma ln_below_one (m : R) : 0 < m < 1 -> ln m < 0.
Proof. intros H. rewrite <- ln_1. apply ln_increasing; lra. Qed.

Lemma ln_above_one (m : R) : 1 < m -> 0 < ln m.
Proof. intros H. rewrite <- ln_1. apply ln_increasing; lra. Qed.

Lemma exponent_positive (m : R) : 0 < m < 1 -> 0 < ln 0.2 / ln m.
Proof.
  intros H. pose proof (ln_below_one m H) as Hm. pose proof ln_fifth_neg as H02.
  assert (Hinv : / ln m < 0) by (apply Rinv_lt_0_compat; exact Hm).
  unfold Rdiv. nra.
Qed.

Lemma exponent_negative (m : R) : 1 < m -> ln 0.2 / ln m < 0.
Proof.
  intros H. pose proof (ln_above_one m H) as Hm. pose proof ln_fifth_neg as H02.
  assert (Hinv : 0 < / ln m) by (apply Rinv_0_lt_compat; exact Hm).
  unfold Rdiv. nra.
Qed.

Lemma scaled_nonnegative_cell (x g : R) :
  0 <= x -> g <> 0 ->
  nan_to_num 1 (np_clip 0 1 (np_power (Num x) (Num g))) = Num (scaled_value x g).
Proof.
  intros Hx Hg. unfold np_power, scaled_value.
  destruct (Req_dec_T g 0); [contradiction|].
  destruct (Rlt_dec 0 x) as [Hpos|Hnpos].
  - destruct (Req_dec_T x 0); [lra|]. reflexivity.
  - destruct (Req_dec_T x 0); [|lra].
    destruct (Rlt_dec 0 g); simpl; [|reflexivity].
    f_equal. unfold Rmin, Rmax.
    destruct (Rle_dec 0 0); destruct (Rle_dec _ 1); lra.
Qed.

Lemma clip01_range (z : R) : 0 <= clip01 z <= 1.
Proof.
  unfold clip01, Rmin, Rmax.
  destruct (Rle_dec z 0); destruct (Rle_dec _ 1); lra.
Qed.

Lemma clip01_monotone (z z' : R) : z <= z' -> clip01 z <= clip01 z'.
Proof.
  intros H. unfold clip01, Rmin, Rmax.
  destruct (Rle_dec z 0); destruct (Rle_dec z' 0);
    repeat match goal with
           | |- context [Rle_dec ?a 1] => destruct (Rle_dec a 1)
           end; lra.
Qed.

Lemma clip01_inside (z : R) : 0 <= z <= 1 -> clip01 z = z.
Proof.
  intros H. unfold clip01, Rmin, Rmax.
  destruct (Rle_dec z 0); destruct (Rle_dec _ 1); lra.
Qed.

Lemma clip01_above (z : R) : 1 <= z -> clip01 z = 1.
Proof.
  intros H. unfold clip01, Rmin, Rmax.
  destruct (Rle_dec z 0); destruct (Rle_dec _ 1); lra.
Qed.

Lemma Rpower_decreasing (x y g : R) :
  g < 0 -> 0 < x <= y -> Rpower y g <= Rpower x g.
Proof.
  intros Hg Hxy.
  replace g with (- - g) by lra.
  rewrite (Rpower_Ropp y (- g)), (Rpower_Ropp x (- g)).
  apply Rinv_le_contravar; [unfold Rpower; apply exp_pos|].
  apply Rle_Rpower_l; lra.
Qed.

Lemma Rpower_below_one (x g : R) : 0 < x < 1 -> 0 < g -> 0 < Rpower x g < 1.
Proof.
  intros Hx Hg. unfold Rpower. split; [apply exp_pos|].
  rewrite <- exp_0. apply exp_increasing.
  pose proof (ln_below_one x Hx). nra.
Qed.

Lemma Rpower_above_one (x g : R) : 1 <= x -> 0 < g -> 1 <= Rpower x g.
Proof.
  intros Hx Hg. unfold Rpower.
  destruct (Req_dec_T x 1) as [->|Hne].
  - rewrite ln_1, Rmult_0_r, exp_0. lra.
  - rewrite <- exp_0. left. apply exp_increasing.
    assert (H : 0 < ln x) by (apply ln_above_one; lra). nra.
Qed.

Lemma scaled_value_monotone (x y g : R) :
  0 <= x <= y ->
  (0 < g -> scaled_value x g <= scaled_value y g) /\
  (g < 0 -> scaled_value y g <= scaled_value x g).
Proof.
  intros Hxy. unfold scaled_value. split; intros Hg.
  - destruct (Rlt_dec 0 g); [|lra].
    destruct (Req_dec_T x 0); destruct (Req_dec_T y 0); try lra.
    + apply clip01_range.
    + apply clip01_monotone. apply Rle_Rpower_l; lra.
  - destruct (Rlt_dec 0 g); [lra|].
    destruct (Req_dec_T x 0); destruct (Req_dec_T y 0); try lra.
    + apply clip01_range.
    + apply clip01_monotone. apply Rpower_decreasing; lra.
Qed.

Lemma gamma_adjust_cell (ds : Dataset) (band : nat) (array out : array2)
    (m x : R) (i j : nat) :
  isel_bands band (reflectance ds) = Ok array ->
  np_nanmean array = Num m ->
  gamma_adjust ds band = Ok out ->
  lookup2 array i j = Some (Num x) -> 0 <= x ->
  0 < m /\ m <> 1 /\
  lookup2 out i j = Some (Num (scaled_value x (ln 0.2 / ln m))).
Proof.
  intros Hsel Hm Hout Hij Hx.
  destruct (gamma_adjust_returns ds band out Hout) as (array' & gamma & Hsel' & Hg & ->).
  assert (array' = array) by congruence. subst array'.
  destruct (gamma_exponent_returns array m gamma Hm Hg) as (Hpos & Hne & ->).
  split; [exact Hpos|]. split; [exact Hne|].
  rewrite lookup2_gamma_scale, Hij. unfold option_map.
  rewrite scaled_nonnegative_cell; [reflexivity|exact Hx|].
  pose proof (ln_neq_0 m Hne Hpos) as Hln. pose proof ln_fifth_neg as H02.
  intros E. apply (f_equal (fun z => z * ln m)) in E.
  unfold Rdiv in E.
  rewrite Rmult_assoc, Rinv_l, Rmult_1_r, Rmult_0_l in E by exact Hln. lra.
Qed.

(** X13: [gamma_adjust] keeps the order of non-negative reflectances
    when the band mean is below 1, a brighter cell never coming out
    darker, and reverses it when the band mean is above 1. *)
Theorem gamma_adjust_order (ds : Dataset) (band : nat) (array out : array2)
    (m x y : R) (i j i' j' : nat) :
  isel_bands band (reflectance ds) = Ok array ->
  np_nanmean array = Num m ->
  gamma_adjust ds band = Ok out ->
  lookup2 array i j = Some (Num x) ->
  lookup2 array i' j' = Some (Num y) ->
  0 <= x <= y ->
  exists u v,
    lookup2 out i j = Some (Num u) /\ lookup2 out i' j' = Some (Num v) /\
    (m < 1 -> u <= v) /\ (1 < m -> v <= u).
Proof.
  intros Hsel Hm Hout Hx Hy Hxy.
  destruct (gamma_adjust_cell ds band array out m x i j Hsel Hm Hout Hx)
    as (Hpos & Hne & Hu); [lra|].
  destruct (gamma_adjust_cell ds band array out m y i' j' Hsel Hm Hout Hy)
    as (_ & _ & Hv); [lra|].
  exists (scaled_value x (ln 0.2 / ln m)), (scaled_value y (ln 0.2 / ln m)).
  split; [exact Hu|]. split; [exact Hv|].
  destruct (scaled_value_monotone x y (ln 0.2 / ln m) Hxy) as (Hinc & Hdec).
  split; intros Hcase.
  - apply Hinc. apply exponent_positive. lra.
  - apply Hdec. apply exponent_negative. exact Hcase.
Qed.

Lemma gamma_adjust_order_witness :
  exists u v,
    lookup2 (gamma_scale [[Num 0.3; Num 0.5; Num 0.7]] (Num (ln 0.2 / ln 0.5))) 0 0
    = Some (Num u) /\
    lookup2 (gamma_scale [[Num 0.3; Num 0.5; Num 0.7]] (Num (ln 0.2 / ln 0.5))) 0 2
    = Some (Num v) /\
    u <= v.
Proof.
  assert (Hout : gamma_adjust mean_ds 0
                 = Ok (gamma_scale [[Num 0.3; Num 0.5; Num 0.7]]
                         (Num (ln 0.2 / ln 0.5)))).
  { apply (gamma_adjust_ok mean_ds 0 _ 0.5 eq_refl mean_ds_mean); lra. }
  destruct (gamma_adjust_order mean_ds 0 _ _ 0.5 0.3 0.7 0 0 0 2
              eq_refl mean_ds_mean Hout eq_refl eq_refl)
    as (u & v & Hu & Hv & Hinc & _); [lra|].
  exists u, v. split; [exact Hu|]. split; [exact Hv|]. apply Hinc. lra.
Defined.

(** X14: with a band mean [m] between 0 and 1 the exponent is positive:
    a zero cell comes out as 0, a cell between 0 and 1 as its power
    [x ** gamma], again between 0 and 1, and a cell at or above 1 as 1.
    With a band mean above 1 the exponent is negative and every cell
    from 0 to 1 comes out as 1. *)
Theorem gamma_adjust_values (ds : Dataset) (band : nat) (array out : array2)
    (m x : R) (i j : nat) :
  isel_bands band (reflectance ds) = Ok array ->
  np_nanmean array = Num m ->
  gamma_adjust ds band = Ok out ->
  lookup2 array i j = Some (Num x) ->
  (m < 1 -> x = 0 -> lookup2 out i j = Some (Num 0)) /\
  (m < 1 -> 0 < x < 1 ->
     lookup2 out i j = Some (Num (Rpower x (ln 0.2 / ln m))) /\
     0 < Rpower x (ln 0.2 / ln m) < 1) /\
  (m < 1 -> 1 <= x -> lookup2 out i j = Some (Num 1)) /\
  (1 < m -> 0 <= x <= 1 -> lookup2 out i j = Some (Num 1)).
Proof.
  intros Hsel Hm Hout Hij.
  assert (Hcell : 0 <= x ->
            0 < m /\ m <> 1 /\
            lookup2 out i j = Some (Num (scaled_value x (ln 0.2 / ln m)))).
  { apply (gamma_adjust_cell ds band array out m x i j Hsel Hm Hout Hij). }
  split; [|split; [|split]].
  - intros Hlt Hx. destruct Hcell as (Hpos & _ & ->); [lra|].
    pose proof (exponent_positive m (conj Hpos Hlt)) as Hg.
    unfold scaled_value. destruct (Req_dec_T x 0); [|contradiction].
    destruct (Rlt_dec 0 (ln 0.2 / ln m)); [reflexivity|contradiction].
  - intros Hlt Hx. destruct Hcell as (Hpos & _ & ->); [lra|].
    pose proof (exponent_positive m (conj Hpos Hlt)) as Hg.
    pose proof (Rpower_below_one x _ Hx Hg) as Hp.
    split; [|exact Hp].
    unfold scaled_value. destruct (Req_dec_T x 0); [lra|].
    rewrite clip01_inside by lra. reflexivity.
  - intros Hlt Hx. destruct Hcell as (Hpos & _ & ->); [lra|].
    pose proof (exponent_positive m (conj Hpos Hlt)) as Hg.
    unfold scaled_value. destruct (Req_dec_T x 0); [lra|].
    rewrite clip01_above; [reflexivity|]. apply Rpower_above_one; assumption.
  - intros Hgt Hx. destruct Hcell as (Hpos & _ & ->); [lra|].
    pose proof (exponent_negative m Hgt) as Hg.
    unfold scaled_value. destruct (Req_dec_T x 0) as [E|E].
    + destruct (Rlt_dec 0 (ln 0.2 / ln m)); [lra|reflexivity].
    + rewrite clip01_above; [reflexivity|].
      replace 1 with (Rpower 1 (ln 0.2 / ln m))
        by (unfold Rpower; rewrite ln_1, Rmult_0_r; apply exp_0).
      apply Rpower_decreasing; [exact Hg|lra].
Qed.

Lemma gamma_adjust_values_witness :
  lookup2 (gamma_scale [[Num 0.3; Num 0.5; Num 0.7]] (Num (ln 0.2 / ln 0.5))) 0 0
  = Some (Num (Rpower 0.3 (ln 0.2 / ln 0.5))) /\
  0 < Rpower 0.3 (ln 0.2 / ln 0.5) < 1.
Proof.
  assert (Hout : gamma_adjust mean_ds 0
                 = Ok (gamma_scale [[Num 0.3; Num 0.5; Num 0.7]]
                         (Num (ln 0.2 / ln 0.5)))).
  { apply (gamma_adjust_ok mean_ds 0 _ 0.5 eq_refl mean_ds_mean); lra. }
  destruct (gamma_adjust_values mean_ds 0 _ _ 0.5 0.3 0 0
              eq_refl mean_ds_mean Hout eq_refl) as (_ & Hin & _).
  apply Hin; lra.
Defined.

(* --------------------------------------------------------------------- *)
(** ** Bands of physical reflectance *)
(* --------------------------------------------------------------------- *)

Lemma Rsum_unit_bounds (vs : list R) :
  Forall (fun x => 0 < x < 1) vs ->
  0 <= Rsum vs <= INR (length vs) /\
  (vs <> [] -> 0 < Rsum vs < INR (length vs)).
Proof.
  induction 1 as [|x vs Hx _ (IHw & IHs)].
  - simpl. split; [lra|]. intros H. contradiction.
  - change (Rsum (x :: vs)) with (x + Rsum vs).
    change (length (x :: vs)) with (S (length vs)). rewrite S_INR.
    split; [lra|]. intros _. lra.
Qed.

Lemma mean_in_unit (vs : list R) :
  Forall (fun x => 0 < x < 1) vs -> vs <> [] ->
  0 < Rsum vs / INR (length vs) < 1.
Proof.
  intros Hall Hne.
  destruct (Rsum_unit_bounds vs Hall) as (_ & Hs). specialize (Hs Hne).
  assert (Hn : 0 < INR (length vs)) by lra.
  pose proof (Rinv_0_lt_compat _ Hn) as Hinv.
  assert (Hone : INR (length vs) * / INR (length vs) = 1) by (apply Rinv_r; lra).
  unfold Rdiv. split; nra.
Qed.

(** X15: on a band that has a valid cell and whose valid cells all lie
    strictly between 0 and 1, [gamma_adjust] raises nothing: the mean is
    between 0 and 1 as well, the exponent is positive, and the scaled
    plane is returned. *)
Theorem gamma_adjust_physical (ds : Dataset) (band : nat) (array : array2) :
  isel_bands band (reflectance ds) = Ok array ->
  valid_values array <> [] ->
  Forall (fun x => 0 < x < 1) (valid_values array) ->
  exists m,
    np_nanmean array = Num m /\ 0 < m < 1 /\ 0 < ln 0.2 / ln m /\
    gamma_adjust ds band = Ok (gamma_scale array (Num (ln 0.2 / ln m))).
Proof.
  intros Hsel Hne Hall.
  assert (Hmean : exists m, np_nanmean array = Num m /\ 0 < m < 1).
  { unfold np_nanmean. destruct (valid_values array) as [|x vs] eqn:E;
      [contradiction|].
    eexists. split; [reflexivity|]. apply mean_in_unit; [exact Hall|discriminate]. }
  destruct Hmean as (m & Hm & Hrange). exists m.
  split; [exact Hm|]. split; [exact Hrange|].
  split; [apply exponent_positive; exact Hrange|].
  apply (gamma_adjust_ok ds band array m Hsel Hm); lra.
Qed.

Lemma gamma_adjust_physical_witness :
  exists m,
    np_nanmean [[Num 0.3; Num 0.7]] = Num m /\ 0 < m < 1 /\
    0 < ln 0.2 / ln m /\
    gamma_adjust sample_ds 0
    = Ok (gamma_scale [[Num 0.3; Num 0.7]] (Num (ln 0.2 / ln m))).
Proof.
  apply (gamma_adjust_physical sample_ds 0 [[Num 0.3; Num 0.7]] eq_refl).
  - discriminate.
  - simpl. repeat constructor; lra.
Defined.

Lemma mask_plane_no_sentinel (plane : array2) :
  count2 is_sentinel plane = 0%nat -> mask_plane plane = plane.
Proof.
  unfold count2, mask_plane. induction plane as [|row plane IH]; simpl;
    [reflexivity|].
  intros H. assert (Hrow : count1 is_sentinel row = 0%nat) by lia.
  rewrite IH by lia. f_equal. clear IH H.
  unfold count1 in Hrow. induction row as [|v row IH]; simpl; [reflexivity|].
  simpl in Hrow. rewrite mask_val_cases.
  destruct (is_sentinel v); [discriminate|].
  rewrite IH by exact Hrow. reflexivity.
Qed.

(** X16: on a band without any sentinel cell the mask of cell 34 changes
    nothing for the scaling: [gamma_adjust] gives on the masked dataset
    what it gives on the unmasked one, a returned plane or an
    exception. *)
Theorem mask_keeps_clean_band (ds : Dataset) (band : nat) (plane : array2) :
  isel_bands band (reflectance ds) = Ok plane ->
  count2 is_sentinel plane = 0%nat ->
  isel_bands band (reflectance (mask_ds_geo ds)) = Ok plane /\
  gamma_adjust (mask_ds_geo ds) band = gamma_adjust ds band.
Proof.
  intros Hsel Hclean.
  pose proof (isel_bands_masked_geo ds band plane Hsel) as Hsel'.
  rewrite (mask_plane_no_sentinel plane Hclean) in Hsel'.
  split; [exact Hsel'|].
  rewrite (gamma_adjust_unfold _ band plane Hsel').
  rewrite (gamma_adjust_unfold ds band plane Hsel). reflexivity.
Qed.

Lemma mask_keeps_clean_band_witness :
  gamma_adjust (mask_ds_geo sample_ds) 0 = gamma_adjust sample_ds 0.
Proof.
  apply (mask_keeps_clean_band sample_ds 0 [[Num 0.3; Num 0.7]] eq_refl).
  unfold count2, count1, is_sentinel, val_ne, sentinel. simpl.
  rdecide. reflexivity.
Defined.
